(** * Vibe-Song-Sync: the acquisition pipeline and its catalog store

    A shallow embedding of [src/core/database.py], [src/core/scraper.py],
    [src/core/downloader.py], [src/core/utils.py] and [src/core/threads.py],
    with the properties of the pipeline stated over it.

    Conventions.  A Python [dict] is a finite map from keys to Python
    values; the mutable [song] dictionary is threaded through every function
    that assigns to it.  A SQLite table is the list of its rows in insertion
    order, and each call of the store is one transaction.  The download
    directory is a finite map from file names to contents, on which the
    operations the code guards with [exists()] succeed.  The network, the
    clock and the random generator are inputs of the functions that consult
    them, and so is the order in which the page fetches of the worker pool
    complete; the function run for one page or for one song is sequential.
    The fetcher and the orchestrator leave a trace of their requests,
    delays, signals and log records. *)

From Stdlib Require Import Ascii QArith Qminmax OrderedTypeEx.
From stdpp Require Import gmap strings list sorting pretty.

Close Scope Q_scope.

(** ** Python values *)

Inductive pyval :=
  | PyNone
  | PyStr (s : string)
  | PyInt (n : Z)
  | PyList (l : list string).

#[global] Instance pyval_eq_dec : EqDecision pyval.
Proof. solve_decision. Defined.

(** Truth value of an object, as tested by [if v] and [not v]. *)
Definition truthy (v : pyval) : bool :=
  match v with
  | PyNone => false
  | PyStr s => negb (String.eqb s "")
  | PyInt n => negb (n =? 0)%Z
  | PyList l => match l with [] => false | _ => true end
  end.

Abbreviation pydict := (gmap string pyval).

(** [d.get(k)] and [d.get(k, dflt)]: the default only replaces an absent
    key, never a key that is present with a false value. *)
Definition dict_get (d : pydict) (k : string) : pyval := default PyNone (d !! k).
Definition dict_get_default (d : pydict) (k : string) (dflt : pyval) : pyval :=
  default dflt (d !! k).

Inductive exn :=
  | ValueError
  | KeyError (k : string)
  | TypeError
  | InterfaceError
  | IntegrityError
  | RequestException
  | BadZipFile
  | OtherException.

#[global] Instance exn_eq_dec : EqDecision exn.
Proof. solve_decision. Defined.

Inductive result (A : Type) :=
  | Ok (a : A)
  | Raise (e : exn).
Arguments Ok {A} a.
Arguments Raise {A} e.

#[global] Instance result_ret : MRet result := λ A a, Ok a.
#[global] Instance result_bind : MBind result := λ A B f m,
  match m with
  | Ok a => f a
  | Raise e => Raise e
  end.

(** ** The catalog store ([database.py]) *)

Module Database.

(** Storage classes of the values held by the two tables.  [SqlJson v] is
    the TEXT produced by [json.dumps v]. *)
Inductive sqlval :=
  | SqlNull
  | SqlText (s : string)
  | SqlInt (n : Z)
  | SqlJson (v : pyval).

#[global] Instance sqlval_eq_dec : EqDecision sqlval.
Proof. solve_decision. Defined.

(** Binding of a Python value to a [?] placeholder: [sqlite3] accepts
    [None], [str] and [int] and rejects a list. *)
Definition bind_param (v : pyval) : option sqlval :=
  match v with
  | PyNone => Some SqlNull
  | PyStr s => Some (SqlText s)
  | PyInt n => Some (SqlInt n)
  | PyList _ => None
  end.

(** A column declared TEXT stores an integer in its text form.  (The
    conversion of numeric text by the two INTEGER columns is not
    modelled: they hold the value as bound.) *)
Definition text_affinity (v : sqlval) : sqlval :=
  match v with
  | SqlInt n => SqlText (pretty n)
  | _ => v
  end.

(** One row of [purchased_songs]; [song_id] is the PRIMARY KEY. *)
Record song_row := SongRow {
  song_id : sqlval;
  artist : sqlval;
  artist_url : sqlval;
  title : sqlval;
  title_url : sqlval;
  order_date : sqlval;
  download_url : sqlval;
  file_path : sqlval;
  downloaded : sqlval;
  extracted : sqlval
}.

#[global] Instance song_row_eq_dec : EqDecision song_row.
Proof. solve_decision. Defined.

Abbreviation song_table := (list song_row).

(** [file_paths = song.get("file_path", "")] followed by the [isinstance]
    normalisation of a plain string into a list. *)
Definition file_paths_of (song : pydict) : pyval :=
  match dict_get_default song "file_path" (PyStr "") with
  | PyStr s => if truthy (PyStr s) then PyList [s] else PyList []
  | v => v
  end.

(** [INSERT OR REPLACE]: the rows in conflict on the primary key are
    deleted, then the new row is inserted. *)
Definition insert_or_replace (r : song_row) (tbl : song_table) : song_table :=
  filter (λ r', song_id r' ≠ song_id r) tbl ++ [r].

Definition required_fields : list string := ["song_id"; "artist"; "title"].

(** The loop over [required_fields]: a field whose value is false is
    reassigned [song.get(field, "Unknown")]. *)
Definition fill_required (song : pydict) : pydict :=
  foldl (λ s field,
           if truthy (dict_get s field) then s
           else <[field := dict_get_default s field (PyStr "Unknown")]> s)
        song required_fields.

(** The parameter tuple of the INSERT of [save_song], bound column by
    column. *)
Definition insert_params (song : pydict) : option song_row :=
  id ← song !! "song_id" ≫= bind_param;
  ar ← bind_param (dict_get_default song "artist" (PyStr "Unknown"));
  au ← bind_param (dict_get_default song "artist_url" (PyStr ""));
  ti ← bind_param (dict_get_default song "title" (PyStr "Unknown"));
  tu ← bind_param (dict_get_default song "title_url" (PyStr ""));
  od ← bind_param (dict_get song "order_date");
  du ← bind_param (dict_get_default song "download_url" (PyStr ""));
  dl ← bind_param (dict_get_default song "downloaded" (PyInt 0));
  ex ← bind_param (dict_get_default song "extracted" (PyInt 0));
  Some {| song_id := text_affinity id;
          artist := text_affinity ar;
          artist_url := text_affinity au;
          title := text_affinity ti;
          title_url := text_affinity tu;
          order_date := text_affinity od;
          download_url := text_affinity du;
          file_path := SqlJson (file_paths_of song);
          downloaded := dl;
          extracted := ex |}.

(** [DatabaseManager.save_song].  The result is the outcome of the call,
    the [song] dictionary as the call leaves it, and the table.  An
    exception raised inside the connection block rolls the statement
    back and is raised again. *)
Definition save_song (song : pydict) (tbl : song_table)
  : result unit * pydict * song_table :=
  if bool_decide (song = ∅) || negb (truthy (dict_get song "song_id")) then
    (Raise ValueError, song, tbl)
  else
    let song' := fill_required song in
    match insert_params song' with
    | Some r => (Ok tt, song', insert_or_replace r tbl)
    | None => (Raise InterfaceError, song', tbl)
    end.

(** The parameter tuple of the UPDATE of [update_song]; a subscript
    [song[k]] on an absent key raises [KeyError]. *)
Definition item (song : pydict) (k : string) : result pyval :=
  match song !! k with
  | Some v => Ok v
  | None => Raise (KeyError k)
  end.

(** [DatabaseManager.update_song]: the subscripts of the parameter tuple
    are evaluated first, in the order of the tuple, then the values are
    bound; the UPDATE rewrites every column but the key of the rows whose
    key equals the bound identifier (no row when it is NULL). *)
Definition update_params (song : pydict) : result song_row :=
  ar ← item song "artist";
  au ← item song "artist_url";
  ti ← item song "title";
  tu ← item song "title_url";
  od ← item song "order_date";
  du ← item song "download_url";
  id ← item song "song_id";
  match
    ar ← bind_param ar; au ← bind_param au; ti ← bind_param ti;
    tu ← bind_param tu; od ← bind_param od; du ← bind_param du;
    dl ← bind_param (dict_get_default song "downloaded" (PyInt 0));
    ex ← bind_param (dict_get_default song "extracted" (PyInt 0));
    id ← bind_param id;
    Some {| song_id := text_affinity id;
            artist := text_affinity ar;
            artist_url := text_affinity au;
            title := text_affinity ti;
            title_url := text_affinity tu;
            order_date := text_affinity od;
            download_url := text_affinity du;
            file_path := SqlJson (file_paths_of song);
            downloaded := dl;
            extracted := ex |}
  with
  | Some r => Ok r
  | None => Raise InterfaceError
  end.

Definition update_song (song : pydict) (tbl : song_table)
  : result unit * song_table :=
  match update_params song with
  | Ok r =>
      (Ok tt,
       (λ r', if decide (song_id r' = song_id r ∧ song_id r ≠ SqlNull)
              then r else r') <$> tbl)
  | Raise e => (Raise e, tbl)
  end.

(** [song_exists]: the [downloaded] column of the row of that key. *)
Definition song_exists (id : string) (tbl : song_table) : option sqlval :=
  downloaded <$> head (filter (λ r, song_id r = SqlText id) tbl).

(** A run of [save_song] calls, each in its own connection: a call that
    raises leaves the table as it found it. *)
Definition save_all (songs : list pydict) (tbl : song_table) : song_table :=
  foldl (λ t s, (save_song s t).2) tbl songs.

(** The row a call of [save_song] writes, if the call returns. *)
Definition written (song : pydict) : option song_row :=
  match save_song song [] with
  | (Ok _, _, t) => last t
  | (Raise _, _, _) => None
  end.

(** The rows of a table that carry a given key. *)
Definition rows_of (id : sqlval) (tbl : song_table) : song_table :=
  filter (λ r, song_id r = id) tbl.

(** *** The upserts of a run, read off the records

    A call of [save_song] stores a row when the identifier of the record
    is true and none of the values bound to a placeholder is a list (the
    file paths go through [json.dumps]); the row then holds the values of
    the record column by column, the defaults of [dict.get] standing for
    the absent ones. *)
Definition bound_keys : list string :=
  ["song_id"; "artist"; "artist_url"; "title"; "title_url"; "order_date";
   "download_url"; "downloaded"; "extracted"].

Definition is_list (v : pyval) : bool :=
  match v with
  | PyList _ => true
  | _ => false
  end.

Definition upserts (song : pydict) : bool :=
  truthy (dict_get song "song_id")
  && forallb (λ k, negb (is_list (dict_get song k))) bound_keys.

(** What a TEXT column and an INTEGER column hold of a value. *)
Definition text_column (v : pyval) : sqlval :=
  match v with
  | PyStr s => SqlText s
  | PyInt n => SqlText (pretty n)
  | PyNone | PyList _ => SqlNull
  end.

Definition integer_column (v : pyval) : sqlval :=
  match v with
  | PyStr s => SqlText s
  | PyInt n => SqlInt n
  | PyNone | PyList _ => SqlNull
  end.

(** The key under which a record is stored. *)
Definition stored_key (song : pydict) : sqlval :=
  text_column (dict_get song "song_id").

(** The row [r] reflects the record [song]. *)
Definition reflects (song : pydict) (r : song_row) : Prop :=
  song_id r = stored_key song
  ∧ artist r = text_column (dict_get_default song "artist" (PyStr "Unknown"))
  ∧ artist_url r = text_column (dict_get_default song "artist_url" (PyStr ""))
  ∧ title r = text_column (dict_get_default song "title" (PyStr "Unknown"))
  ∧ title_url r = text_column (dict_get_default song "title_url" (PyStr ""))
  ∧ order_date r = text_column (dict_get song "order_date")
  ∧ download_url r
    = text_column (dict_get_default song "download_url" (PyStr ""))
  ∧ file_path r = SqlJson (file_paths_of song)
  ∧ downloaded r
    = integer_column (dict_get_default song "downloaded" (PyInt 0))
  ∧ extracted r
    = integer_column (dict_get_default song "extracted" (PyInt 0)).

(** A run of four calls: KV100, a record without identifier, KV101, and
    KV100 again under another artist name. *)
Definition sample_track (id artist : string) : pydict :=
  {[ "song_id" := PyStr id; "artist" := PyStr artist;
     "title" := PyStr "Song" ]}.

Definition upsert_run : list pydict :=
  [ sample_track "KV100" "Queen";
    {[ "artist" := PyStr "Queen" ]};
    sample_track "KV101" "Abba";
    sample_track "KV100" "Queen and Bowie" ].

(** One row of [operation_logs]; [log_id] is the PRIMARY KEY and
    [end_time] is NULL until the operation completes.  Timestamps are the
    ISO-8601 texts of [datetime.now().isoformat()], compared as TEXT. *)
Record log_row := LogRow {
  log_id : string;
  operation : string;
  start_time : string;
  end_time : option string;
  status : string;
  details : string
}.

#[global] Instance log_row_eq_dec : EqDecision log_row.
Proof. solve_decision. Defined.

Abbreviation log_table := (list log_row).

(** [start_log_operation]: the shortened UUID [id] and the clock reading
    [now] are inputs; the INSERT is refused when the key is taken. *)
Definition start_log_operation (id now name dtl : string) (logs : log_table)
  : result string * log_table :=
  if decide (id ∈ log_id <$> logs) then (Raise IntegrityError, logs)
  else
    (Ok id,
     logs ++ [ {| log_id := id; operation := name; start_time := now;
                  end_time := None; status := "running"; details := dtl |} ]).

(** [a] is at least as recent as [b] in the order of the TEXT column. *)
Definition newer_eq (a b : log_row) : Prop :=
  String.leb (start_time b) (start_time a) = true.

(** What [ORDER BY start_time DESC] guarantees of its result: the same
    rows, most recent first.  The order among rows of equal start time is
    left to the engine. *)
Definition orders_newest_first (order_by : log_table → log_table) : Prop :=
  ∀ l, order_by l ≡ₚ l ∧ StronglySorted newer_eq (order_by l).

Definition max_log_entries : nat := 100.

(** The UPDATE of [update_log_operation]: end time, status and details of
    the row of key [id]. *)
Definition set_completed (now id st dtl : string) (logs : log_table)
  : log_table :=
  (λ r, if decide (log_id r = id)
        then {| log_id := log_id r; operation := operation r;
                start_time := start_time r; end_time := Some now;
                status := st; details := dtl |}
        else r) <$> logs.

(** The DELETE of [update_log_operation]: every row whose key is not among
    the first 100 keys of the table ordered by [start_time] descending. *)
Definition purge_old (order_by : log_table → log_table) (logs : log_table)
  : log_table :=
  let keep := log_id <$> take max_log_entries (order_by logs) in
  filter (λ r, log_id r ∈ keep) logs.

(** [update_log_operation]; [now] is the clock reading. *)
Definition update_log_operation (order_by : log_table → log_table)
    (now id st dtl : string) (logs : log_table) : log_table :=
  purge_old order_by (set_completed now id st dtl logs).

(** An ordering that meets [orders_newest_first]: insertion of each row
    before the first row that is not more recent. *)
Fixpoint insert_newest_first (r : log_row) (l : log_table) : log_table :=
  match l with
  | [] => [r]
  | r' :: l' =>
      if String.leb (start_time r') (start_time r) then r :: l
      else r' :: insert_newest_first r l'
  end.

Definition sort_newest_first (l : log_table) : log_table :=
  foldr insert_newest_first [] l.

(** A log with a completed operation and a running one. *)
Definition running_log : log_table :=
  [ {| log_id := "0000AAAA"; operation := "Full Sync";
       start_time := "2023-12-31T23:00:00";
       end_time := Some "2023-12-31T23:10:00";
       status := "success"; details := "Sync completed." |};
    {| log_id := "ABCD1234"; operation := "Fetch New";
       start_time := "2024-01-01T00:00:00"; end_time := None;
       status := "running"; details := "" |} ].

(** [song_exists] on the value [ScrapeThread.run] passes, [song["song_id"]]:
    the parameter is bound, then compared with the TEXT column. *)
Definition song_exists_value (id : pyval) (tbl : song_table)
  : result (option sqlval) :=
  match bind_param id with
  | Some v =>
      Ok (downloaded <$>
            head (filter (λ r, song_id r = text_affinity v ∧ v ≠ SqlNull) tbl))
  | None => Raise InterfaceError
  end.

(** [clear_database] and [get_total_song_count]. *)
Definition clear_database (tbl : song_table) : song_table := [].

Definition get_total_song_count (tbl : song_table) : nat := length tbl.

(** The tests of [validate_database_integrity] and [cleanup_database]:
    [song_id IS NULL OR song_id = ''], and [downloaded = 1 AND (file_path IS
    NULL OR file_path = '' OR file_path = '[]')].  The text [[]] is also
    what [json.dumps] makes of the empty list. *)
Definition invalid_id (r : song_row) : Prop :=
  song_id r = SqlNull ∨ song_id r = SqlText "".

Definition no_file_reference (v : sqlval) : Prop :=
  v = SqlNull ∨ v = SqlText "" ∨ v = SqlText "[]" ∨ v = SqlJson (PyList []).

Definition missing_file_path (r : song_row) : Prop :=
  downloaded r = SqlInt 1 ∧ no_file_reference (file_path r).

#[global] Instance invalid_id_dec r : Decision (invalid_id r).
Proof. unfold invalid_id. apply _. Defined.

#[global] Instance missing_file_path_dec r : Decision (missing_file_path r).
Proof. unfold missing_file_path, no_file_reference. apply _. Defined.

(** The keys that [GROUP BY song_id HAVING COUNT( * ) > 1] returns. *)
Definition duplicate_keys (tbl : song_table) : list sqlval :=
  filter (λ k, 1 < length (filter (λ r, song_id r = k) tbl))
         (remove_dups (song_id <$> tbl)).

Record integrity_report := IntegrityReport {
  total_songs : nat;
  invalid_ids : nat;
  duplicates : nat;
  missing_file_paths : nat;
  is_healthy : bool
}.

(** [validate_database_integrity]. *)
Definition validate_database_integrity (tbl : song_table) : integrity_report :=
  let invalid := length (filter invalid_id tbl) in
  let dups := length (duplicate_keys tbl) in
  {| total_songs := get_total_song_count tbl;
     invalid_ids := invalid;
     duplicates := dups;
     missing_file_paths := length (filter missing_file_path tbl);
     is_healthy := (invalid =? 0) && (dups =? 0) |}.

(** The UPDATE of [cleanup_database] on one row. *)
Definition reset_download (r : song_row) : song_row :=
  {| song_id := song_id r; artist := artist r; artist_url := artist_url r;
     title := title r; title_url := title_url r; order_date := order_date r;
     download_url := download_url r; file_path := SqlText "[]";
     downloaded := SqlInt 0; extracted := extracted r |}.

(** [cleanup_database]: the table it leaves with the two row counts it
    returns, [removed_invalid] and [fixed_paths]. *)
Definition cleanup_database (tbl : song_table) : song_table * (nat * nat) :=
  let kept := filter (λ r, ¬ invalid_id r) tbl in
  ((λ r, if decide (missing_file_path r) then reset_download r else r) <$> kept,
   (length (filter invalid_id tbl), length (filter missing_file_path kept))).

(** [get_operation_logs].  [like pattern text] stands for the operator
    LIKE of the engine; [filters] is the value of [filters['operation']]
    when the dictionary is given and has the key.  A negative OFFSET counts
    as zero and a negative LIMIT as no limit. *)
Definition log_matches (like : string → string → bool)
    (filters search_term : option string) (r : log_row) : bool :=
  match search_term with
  | Some term =>
      if truthy (PyStr term) then
        let search_pattern := "%" +:+ term +:+ "%" in
        like search_pattern (operation r) || like search_pattern (details r)
        || like search_pattern (status r)
      else true
  | None => true
  end
  &&
  match filters with
  | Some op => if truthy (PyStr op) then bool_decide (operation r = op) else true
  | None => true
  end.

Definition limit_offset {A} (limit offset : Z) (l : list A) : list A :=
  let skipped := drop (Z.to_nat offset) l in
  if (limit <? 0)%Z then skipped else take (Z.to_nat limit) skipped.

Definition get_operation_logs (like : string → string → bool)
    (order_by : log_table → log_table)
    (filters search_term : option string) (page page_size : Z)
    (logs : log_table) : log_table :=
  let offset := ((page - 1) * page_size)%Z in
  limit_offset page_size offset
    (order_by (filter (λ r, log_matches like filters search_term r = true) logs)).

(** [clear_operation_logs]. *)
Definition clear_operation_logs (logs : log_table) : log_table := [].

(** The order of [ORDER BY order_date DESC] on the values the column
    holds, NULL and TEXT: NULL comes last. *)
Definition stored_date (v : sqlval) : Prop :=
  v = SqlNull ∨ ∃ s, v = SqlText s.

Definition later_eqb (a b : song_row) : bool :=
  match order_date a, order_date b with
  | _, SqlNull => true
  | SqlText s, SqlText t => String.leb t s
  | _, _ => false
  end.

Definition orders_latest_first (order_by : song_table → song_table) : Prop :=
  ∀ tbl, Forall (λ r, stored_date (order_date r)) tbl →
    order_by tbl ≡ₚ tbl
    ∧ StronglySorted (λ a b, later_eqb a b = true) (order_by tbl).

(** [get_last_song_id]: [SELECT song_id ... ORDER BY order_date DESC
    LIMIT 1]. *)
Definition get_last_song_id (order_by : song_table → song_table)
    (tbl : song_table) : option sqlval :=
  song_id <$> head (order_by tbl).

Fixpoint insert_latest_first (r : song_row) (l : song_table) : song_table :=
  match l with
  | [] => [r]
  | r' :: l' =>
      if later_eqb r r' then r :: l else r' :: insert_latest_first r l'
  end.

Definition sort_latest_first (l : song_table) : song_table :=
  foldr insert_latest_first [] l.

(** Rows to try the integrity check on. *)
Definition sample_row (id : sqlval) (date flag paths : sqlval) : song_row :=
  {| song_id := id; artist := SqlText "Queen"; artist_url := SqlText "";
     title := SqlText "Song"; title_url := SqlText ""; order_date := date;
     download_url := SqlText "/my/download.html?id=1"; file_path := paths;
     downloaded := flag; extracted := SqlInt 0 |}.

Definition damaged_table : song_table :=
  [ sample_row (SqlText "KV100") (SqlText "2024-01-01") (SqlInt 1)
      (SqlJson (PyList ["a.zip"]));
    sample_row (SqlText "") SqlNull (SqlInt 0) (SqlJson (PyList []));
    sample_row (SqlText "KV101") (SqlText "2024-02-01") (SqlInt 1)
      (SqlJson (PyList [])) ].

End Database.

(** ** The page fetcher and the reconciler ([scraper.py]) *)

Module Scraper.

(** What one attempt at a listing page comes to: the GET,
    [raise_for_status] or the parse raises, or the page is parsed into its
    rows, each with the outcome of [_extract_song_data], and the presence
    of the [rel="next"] link. *)
Inductive attempt_outcome :=
  | AttemptRaises
  | AttemptPage (rows : list (result pydict)) (has_next_page : bool).

(** The network as the scraper sees it: the outcome of the attempt of a
    given number at the page of a given number. *)
Definition listing_site := nat → nat → attempt_outcome.

Inductive event :=
  | Get (url : string)
  | Sleep (secs : Z)
  | LogAttemptFailed (attempt page_number : nat)
  | LogAllAttemptsFailed (page_number : nat)
  | LogRowSkipped.

Definition page_url (base_url : string) (page_number : nat) : string :=
  base_url +:+ "/my/download.html?m=a&orderField=add_date&orderSort=desc&type=2&page="
           +:+ pretty page_number.

(** The loop over the rows of a page: a row whose extraction raises is
    logged and skipped, an empty result is dropped. *)
Fixpoint rows_songs (rows : list (result pydict)) : list pydict * list event :=
  match rows with
  | [] => ([], [])
  | Ok song_data :: rows' =>
      let '(songs, tr) := rows_songs rows' in
      (if bool_decide (song_data = ∅) then songs else song_data :: songs, tr)
  | Raise _ :: rows' =>
      let '(songs, tr) := rows_songs rows' in
      (songs, LogRowSkipped :: tr)
  end.

(** The body of [for attempt in range(max_retries)], with [remaining]
    iterations left; the value after the loop is [[], False]. *)
Fixpoint scrape_attempts (site : listing_site) (base_url : string)
    (page_number max_retries remaining : nat)
  : (list pydict * bool) * list event :=
  match remaining with
  | 0 => (([], false), [])
  | S remaining' =>
      let attempt := max_retries - remaining in
      match site page_number attempt with
      | AttemptPage rows has_next_page =>
          let '(songs, tr) := rows_songs rows in
          ((songs, has_next_page), Get (page_url base_url page_number) :: tr)
      | AttemptRaises =>
          if attempt =? max_retries - 1 then
            (([], false),
             [Get (page_url base_url page_number);
              LogAttemptFailed (attempt + 1) page_number;
              LogAllAttemptsFailed page_number])
          else
            let '(r, tr) :=
              scrape_attempts site base_url page_number max_retries remaining' in
            (r, Get (page_url base_url page_number)
                  :: LogAttemptFailed (attempt + 1) page_number
                  :: Sleep (2 ^ Z.of_nat attempt) :: tr)
      end
  end.

(** [SongScraper.scrape_songs_on_page]. *)
Definition scrape_songs_on_page (site : listing_site) (base_url : string)
    (page_number max_retries : nat) : (list pydict * bool) * list event :=
  scrape_attempts site base_url page_number max_retries max_retries.

(** A watermark is given when [last_song_id] is neither [None] nor empty. *)
Definition watermark_given (last_song_id : option string) : bool :=
  match last_song_id with
  | Some s => truthy (PyStr s)
  | None => false
  end.

(** The loop over the songs of one page in [scrape_all_pages]: the songs
    are appended to [all_songs] until one carries the watermark.  The
    result tells whether the watermark was found; a song without the key
    ["song_id"] raises [KeyError], which ends the page. *)
Fixpoint merge_page (last_song_id : option string) (validate : bool)
    (songs : list pydict) (all_songs : list pydict)
  : result bool * list pydict :=
  match songs with
  | [] => (Ok false, all_songs)
  | song :: songs' =>
      if watermark_given last_song_id then
        match song !! "song_id" with
        | None => (Raise (KeyError "song_id"), all_songs)
        | Some id =>
            if bool_decide (Some id = PyStr <$> last_song_id) && negb validate
            then (Ok true, all_songs)
            else merge_page last_song_id validate songs' (all_songs ++ [song])
        end
      else merge_page last_song_id validate songs' (all_songs ++ [song])
  end.

(** The loop over [as_completed(futures)]: [completion] lists the page
    numbers in the order in which their fetches complete.  The state is
    [all_songs] and [failed_pages]. *)
Fixpoint collect_pages (site : listing_site) (base_url : string)
    (last_song_id : option string) (validate : bool)
    (completion : list nat) (all_songs : list pydict) (failed_pages : list nat)
  : list pydict * list nat :=
  match completion with
  | [] => (all_songs, failed_pages)
  | page_number :: completion' =>
      let songs := (scrape_songs_on_page site base_url page_number 3).1.1 in
      match merge_page last_song_id validate songs all_songs with
      | (Ok true, all_songs') => (all_songs', failed_pages)
      | (Ok false, all_songs') =>
          collect_pages site base_url last_song_id validate completion'
            all_songs' failed_pages
      | (Raise _, all_songs') =>
          collect_pages site base_url last_song_id validate completion'
            all_songs' (failed_pages ++ [page_number])
      end
  end.

(** [SongScraper.scrape_all_pages], called without a progress callback as
    [ScrapeThread.run] does.  The pages [1..total_pages] are fetched by a
    pool of workers; the order [completion] in which they complete is not
    determined by the program.  The result is [all_songs] with the list of
    failed pages. *)
Definition scrape_all_pages (site : listing_site) (base_url : string)
    (total_pages : nat) (completion : list nat)
    (last_song_id : option string) (validate : bool)
  : list pydict * list nat :=
  collect_pages site base_url last_song_id validate completion [] [].

(** The listing as the site serves it, newest purchase first: the songs
    of the pages [1..total_pages] in page order. *)
Definition listing (site : listing_site) (base_url : string)
    (total_pages : nat) : list pydict :=
  concat ((λ page_number,
             (scrape_songs_on_page site base_url page_number 3).1.1)
          <$> seq 1 total_pages).





(** A track as [_extract_song_data] returns it. *)
Definition track (id date : string) : pydict :=
  {[ "song_id" := PyStr id; "artist" := PyStr "Queen";
     "artist_url" := PyStr "/queen.html"; "title" := PyStr "Song";
     "title_url" := PyStr "/song.html"; "order_date" := PyStr date;
     "download_url" := PyStr "/my/download.html?id=1" ]}.


(** The same listing followed by a second page with an older purchase. *)
Definition two_page_site : listing_site := λ page_number _,
  match page_number with
  | 1 => AttemptPage [Ok (track "KV101" "2024-02-01");
                      Ok (track "KV100" "2024-01-01")] true
  | 2 => AttemptPage [Ok (track "KV099" "2023-12-01")] false
  | _ => AttemptRaises
  end.

(** The songs of the given pages, in the order given. *)
Definition pages_songs (site : listing_site) (base_url : string)
    (pages : list nat) : list pydict :=
  concat ((λ page_number,
             (scrape_songs_on_page site base_url page_number 3).1.1)
          <$> pages).

(** The trace of [j] failed attempts that are each followed by another
    attempt. *)
Definition failed_attempts (base_url : string) (page_number j : nat)
  : list event :=
  flat_map (λ attempt,
              [Get (page_url base_url page_number);
               LogAttemptFailed (attempt + 1) page_number;
               Sleep (2 ^ Z.of_nat attempt)])
           (seq 0 j).

(** *** Extraction of one row

    A row of the listing, as far as [_extract_song_data] reads it: the
    cell of class [my-downloaded-files__song] with its first anchor, the
    next sibling cell with its anchor and the date cell that follows it,
    the download anchor and the vote button of the row.  A text is the
    value of [.text.strip()], an attribute the value of [.get(...)]. *)
Record anchor := Anchor {
  anchor_text : string;
  anchor_href : option string
}.

Record artist_cell := ArtistCell {
  artist_text : string;
  artist_anchor : option (option string);
  date_td : option string
}.

Record song_cell := SongCell {
  song_anchor : option anchor;
  artist_td : option artist_cell
}.

Record table_row := TableRow {
  song_td : option song_cell;
  download_link_anchor : option (option string);
  song_id_td : option (option string)
}.

(** A string attribute or [None]. *)
Definition py_opt (o : option string) : pyval :=
  match o with
  | Some s => PyStr s
  | None => PyNone
  end.

(** [SongScraper._extract_song_data]; [intelligent_date_parse] is the
    parser of [date_utils.py], which returns an ISO date or [None]. *)
Definition _extract_song_data (intelligent_date_parse : string → option string)
    (song_row : table_row) : result pydict :=
  match song_td song_row with
  | None => Raise ValueError
  | Some song_td =>
      match artist_td song_td with
      | None => Raise ValueError
      | Some artist_td =>
          match song_anchor song_td with
          | None => Raise ValueError
          | Some song_anchor =>
              let song_name := anchor_text song_anchor in
              let song_url := anchor_href song_anchor in
              let artist_name := artist_text artist_td in
              let artist_url :=
                match artist_anchor artist_td with
                | Some href => href
                | None => None
                end in
              let date :=
                match date_td artist_td with
                | Some text => intelligent_date_parse text
                | None => None
                end in
              match download_link_anchor song_row with
              | None => Raise ValueError
              | Some download_link =>
                  let song_id_val :=
                    match song_id_td song_row with
                    | Some val => val
                    | None => None
                    end in
                  let song_id :=
                    match song_id_val with
                    | Some val =>
                        if truthy (PyStr val) then PyStr ("KV" +:+ val)
                        else PyNone
                    | None => PyNone
                    end in
                  if negb (truthy song_id) || negb (truthy (PyStr song_name))
                     || negb (truthy (PyStr artist_name))
                  then Raise ValueError
                  else
                    Ok {[ "song_id" := song_id;
                          "artist" := PyStr artist_name;
                          "artist_url" := py_opt artist_url;
                          "title" := PyStr song_name;
                          "title_url" := py_opt song_url;
                          "order_date" := py_opt date;
                          "download_url" := py_opt download_link ]}
              end
          end
      end
  end.

(** A row of the listing with every cell in place, and the same row
    without its vote button. *)
Definition complete_row : table_row :=
  {| song_td :=
       Some {| song_anchor :=
                 Some {| anchor_text := "Song";
                         anchor_href := Some "/song.html" |};
               artist_td :=
                 Some {| artist_text := "Queen";
                         artist_anchor := Some (Some "/queen.html");
                         date_td := Some "2/1/24" |} |};
     download_link_anchor := Some (Some "/my/download.html?id=1");
     song_id_td := Some (Some "101") |}.

(** A page that answers at the third attempt. *)
Definition flaky_site : listing_site := λ page_number attempt,
  match attempt with
  | 2 => AttemptPage [Ok (track "KV101" "2024-02-01"); Raise ValueError] false
  | _ => AttemptRaises
  end.

(** Three pages, the second of which lists a record without identifier. *)
Definition three_page_site : listing_site := λ page_number _,
  match page_number with
  | 1 => AttemptPage [Ok (track "KV102" "2024-03-01");
                      Ok (track "KV101" "2024-02-01")] true
  | 2 => AttemptPage [Ok (track "KV100" "2024-01-01");
                      Ok {[ "title" := PyStr "Song" ]};
                      Ok (track "KV098" "2023-11-01")] true
  | 3 => AttemptPage [Ok (track "KV099" "2023-12-01")] false
  | _ => AttemptRaises
  end.

End Scraper.

(** ** The archive fetcher ([downloader.py], [utils.py]) *)

Module Downloader.

Abbreviation bytes := (list Byte.byte).

(** *** File names *)

(** The characters kept by the pattern [[^a-zA-Z0-9\s\-\(\)&']] of
    [sanitize_filename], on the ASCII range; [\s] and [strip] agree on the
    white space of that range. *)
Definition is_space (c : ascii) : bool :=
  let n := nat_of_ascii c in
  (n =? 32) || ((9 <=? n) && (n <=? 13)) || ((28 <=? n) && (n <=? 31)).

Definition is_allowed (c : ascii) : bool :=
  let n := nat_of_ascii c in
  ((97 <=? n) && (n <=? 122)) || ((65 <=? n) && (n <=? 90))
  || ((48 <=? n) && (n <=? 57)) || is_space c
  || (n =? 45) || (n =? 40) || (n =? 41) || (n =? 38) || (n =? 39).

Fixpoint lstrip (l : list ascii) : list ascii :=
  match l with
  | c :: l' => if is_space c then lstrip l' else l
  | [] => []
  end.

Definition strip (l : list ascii) : list ascii :=
  rev (lstrip (rev (lstrip l))).

(** [re.sub(regex_pattern, "", s).strip()]. *)
Definition sanitize (s : string) : string :=
  String.string_of_list_ascii
    (strip (List.filter is_allowed (String.list_ascii_of_string s))).

(** The text an f-string substitutes for a value; [list_repr] stands for
    the [repr] of a list of strings. *)
Definition format_value (list_repr : list string → string) (v : pyval) : string :=
  match v with
  | PyNone => "None"
  | PyStr s => s
  | PyInt n => pretty n
  | PyList l => list_repr l
  end.

(** [sanitize_filename]: [re.sub] raises [TypeError] on an artist or a
    title that is not a string. *)
Definition sanitize_filename (list_repr : list string → string)
    (artist title song_id : pyval) : result string :=
  match artist, title with
  | PyStr a, PyStr t =>
      Ok (sanitize a +:+ " - " +:+ sanitize t +:+ " - "
            +:+ format_value list_repr song_id +:+ ".zip")
  | _, _ => Raise TypeError
  end.

(** [str.rfind('.')]. *)
Fixpoint rfind_dot (l : list ascii) : option nat :=
  match l with
  | [] => None
  | c :: l' =>
      match rfind_dot l' with
      | Some i => Some (S i)
      | None => if Ascii.eqb c "."%char then Some 0 else None
      end
  end.

(** [PurePath.suffix] and [PurePath.with_suffix] on a file name. *)
Definition suffix (name : list ascii) : list ascii :=
  match rfind_dot name with
  | Some i => if (0 <? i) && (i <? length name - 1) then drop i name else []
  | None => []
  end.

Definition with_suffix (name new_suffix : string) : string :=
  let l := String.list_ascii_of_string name in
  String.string_of_list_ascii (take (length l - length (suffix l)) l)
    +:+ new_suffix.

(** *** The network, the signals and the log *)

(** A response as the fetcher reads it: the verdict of
    [raise_for_status], the header [X-File-Href], the header
    [content-length] as [int] reads it (absent or empty, an integer, or a
    text that [int] refuses), the chunks of [iter_content] and the
    exception, if any, that ends the stream after them. *)
Record response := Response {
  status_ok : bool;
  x_file_href : option string;
  content_length : option (result Z);
  body : list bytes;
  body_error : option exn
}.

Inductive reply :=
  | GetRaises (e : exn)
  | Replies (r : response).

Inductive delay := ResolveDelay | Backoff | Jitter.

Inductive signal :=
  | download_progress (id : string) (downloaded_length total_length : Z)
  | download_finished (id : string)
  | download_failed (id msg : string)
  | song_download_completed (id : string)
  | song_started (song : pydict)
  | song_failed (id : string) (e : exn)
  | error (title : pyval) (e : exn).

Inductive log_record :=
  | ResolveError (attempt : nat) (e : exn)
  | ResolveGaveUp (max_retries : nat)
  | ZipVerified
  | ZipVerificationFailed
  | AlreadyValid
  | ExtractionFailed
  | Downloaded (downloaded_length : Z)
  | NetworkError (attempt : nat)
  | AttemptFailed (attempt : nat)
  | Retrying (sleep_time : Q)
  | AllAttemptsFailed (max_retries : nat)
  | OuterAttemptFailed (attempt : nat) (e : exn)
  | OuterGaveUp (e : exn).

Inductive event :=
  | Get (url : string)
  | Sleep (why : delay) (secs : Q)
  | Emit (sig : signal)
  | Log (rec : log_record).

(** What the fetcher and the orchestrator do not decide: the reply of the
    session to its n-th request, whether a file opens and tests as a zip
    archive, the effect of [handle_zip_extraction] on the directory with
    the names it returns, and the draws of [random.uniform(0, 1)] and
    [random.uniform(1, 5)] made after the attempt of a given number. *)
Record environment := Environment {
  session : nat → reply;
  zip_ok : bytes → bool;
  handle_zip_extraction :
    gmap string bytes → string → pyval → bool →
    gmap string bytes * result (list string);
  list_repr : list string → string;
  uniform01 : nat → Q;
  uniform15 : nat → Q
}.

(** The state: the [song] dictionary being fetched, the download directory
    as a map from file names to contents, the number of requests made on
    the session, the table [purchased_songs] and the attributes of
    [DownloadThread]. *)
Record world := World {
  song : pydict;
  files : gmap string bytes;
  requests : nat;
  db : Database.song_table;
  downloaded_song_count : nat;
  stop_downloading_flag : bool
}.

Definition with_song (f : pydict → pydict) (w : world) : world :=
  World (f (song w)) (files w) (requests w) (db w)
        (downloaded_song_count w) (stop_downloading_flag w).

Definition with_files (f : gmap string bytes → gmap string bytes) (w : world)
  : world :=
  World (song w) (f (files w)) (requests w) (db w)
        (downloaded_song_count w) (stop_downloading_flag w).

(** *** Computations: state, exceptions and a trace of events *)

Definition M (A : Type) : Type := world → result A * world * list event.

Definition ret {A} (a : A) : M A := λ w, (Ok a, w, []).

Definition bind {A B} (m : M A) (f : A → M B) : M B := λ w,
  match m w with
  | (Ok a, w', tr) => let '(r, w'', tr') := f a w' in (r, w'', tr ++ tr')
  | (Raise e, w', tr) => (Raise e, w', tr)
  end.

Definition raise {A} (e : exn) : M A := λ w, (Raise e, w, []).

(** [try: m  except Exception as e: handler e]. *)
Definition try_except {A} (m : M A) (handler : exn → M A) : M A := λ w,
  match m w with
  | (Ok a, w', tr) => (Ok a, w', tr)
  | (Raise e, w', tr) =>
      let '(r, w'', tr') := handler e w' in (r, w'', tr ++ tr')
  end.

#[global] Instance M_ret : MRet M := @ret.
#[global] Instance M_bind : MBind M := λ A B f m, bind m f.

Definition tell (e : event) : M unit := λ w, (Ok tt, w, [e]).
Definition log (rec : log_record) : M unit := tell (Log rec).
Definition sleep (why : delay) (secs : Q) : M unit := tell (Sleep why secs).

(** [signal.emit(id, ...)] on a signal declared with a [str] first
    argument: a value of another type is refused with [TypeError]. *)
Definition emit_id (sig : string → signal) (id : pyval) : M unit :=
  match id with
  | PyStr s => tell (Emit (sig s))
  | _ => raise TypeError
  end.

Definition of_result {A} (r : result A) : M A :=
  match r with
  | Ok a => ret a
  | Raise e => raise e
  end.

(** [song[k]] and [song[k] = v]. *)
Definition song_item (k : string) : M pyval := λ w,
  match song w !! k with
  | Some v => (Ok v, w, [])
  | None => (Raise (KeyError k), w, [])
  end.

Definition song_set (k : string) (v : pyval) : M unit := λ w,
  (Ok tt, with_song (insert k v) w, []).

(** [path.exists()], [path.unlink()], [path.open('wb')] followed by
    writes, and [path.rename(target)] in the download directory. *)
Definition path_exists (name : string) : M bool := λ w,
  (Ok (bool_decide (is_Some (files w !! name))), w, []).

Definition unlink (name : string) : M unit := λ w,
  match files w !! name with
  | Some _ => (Ok tt, with_files (delete name) w, [])
  | None => (Raise OtherException, w, [])
  end.

Definition read_file (name : string) : M (option bytes) := λ w,
  (Ok (files w !! name), w, []).

Definition write_file (name : string) (content : bytes) : M unit := λ w,
  (Ok tt, with_files (insert name content) w, []).

Definition rename (name target : string) : M unit := λ w,
  match files w !! name with
  | Some content =>
      (Ok tt, with_files (λ fs, <[target := content]> (delete name fs)) w, [])
  | None => (Raise OtherException, w, [])
  end.

Section Fetcher.

Variable E : environment.

(** [self.session.get(url, ...)]: the request is counted and answered by
    the environment. *)
Definition session_get (url : string) : M response := λ w,
  let w' := World (song w) (files w) (S (requests w)) (db w)
                  (downloaded_song_count w) (stop_downloading_flag w) in
  match session E (requests w) with
  | GetRaises e => (Raise e, w', [Get url])
  | Replies r => (Ok r, w', [Get url])
  end.

(** [get_direct_download_url]: the [while retry_count < max_retries] loop
    with [remaining] iterations left. *)
Fixpoint resolve_attempts (download_url : string) (max_retries remaining : nat)
  : M (option string) :=
  match remaining with
  | 0 => log (ResolveGaveUp max_retries);; mret None
  | S remaining' =>
      let retry_count := max_retries - remaining in
      found ← try_except
                (response ← session_get download_url;
                 mret (x_file_href response))
                (λ e, log (ResolveError (retry_count + 1) e);; mret None);
      match found with
      | Some href => mret (Some href)
      | None =>
          sleep ResolveDelay 2;;
          resolve_attempts download_url max_retries remaining'
      end
  end.

Definition get_direct_download_url (download_url : string) (max_retries : nat)
  : M (option string) :=
  resolve_attempts download_url max_retries max_retries.

(** The call of [handle_zip_extraction], whose effect on the directory is
    given by the environment. *)
Definition extract_archive (file_name : string) (song_id : pyval)
    (delete_zip : bool) : M (list string) := λ w,
  let '(fs, r) := handle_zip_extraction E (files w) file_name song_id delete_zip in
  (r, with_files (λ _, fs) w, []).

(** [verify_zip_file]: a file that does not open or test as an archive is
    deleted. *)
Definition verify_zip_file (name : string) : M bool :=
  content ← read_file name;
  match content with
  | Some content =>
      if zip_ok E content then log ZipVerified;; mret true
      else log ZipVerificationFailed;; unlink name;; mret false
  | None => log ZipVerificationFailed;; unlink name;; mret false
  end.

(** The loop over [response.iter_content]: an empty chunk is skipped, a
    chunk is appended to the temporary file and counted, and progress is
    emitted when the total length is known and not zero.  The progress
    signal carries the two lengths from which the source computes the
    percentage in floating point. *)
Fixpoint write_chunks (song_id : pyval) (temp_file : string)
    (total_length : option Z) (chunks : list bytes)
    (written : bytes) (downloaded_length : Z) : M Z :=
  match chunks with
  | [] => mret downloaded_length
  | chunk :: chunks' =>
      match chunk with
      | [] =>
          write_chunks song_id temp_file total_length chunks'
            written downloaded_length
      | _ =>
          let written' := written ++ chunk in
          let downloaded_length' :=
            (downloaded_length + Z.of_nat (length chunk))%Z in
          write_file temp_file written';;
          match total_length with
          | Some total =>
              if (total =? 0)%Z then mret tt
              else emit_id (λ id, download_progress id downloaded_length' total)
                           song_id
          | None => mret tt
          end;;
          write_chunks song_id temp_file total_length chunks'
            written' downloaded_length'
      end
  end.

Definition max_retries : nat := 5.

Definition is_request_exception (e : exn) : bool :=
  bool_decide (e = RequestException).

(** The [try] block of one iteration of the retry loop of
    [download_song]; it returns when the download succeeded.  The
    wall-clock [download_time] it stores on success is not recorded. *)
Definition attempt_body (song_id : pyval) (file_name : string)
    (unzip_songs delete_zip : bool) : M unit :=
  download_url ← song_item "download_url";
  url ← match download_url with
        | PyStr s => mret ("https://www.karaoke-version.com" +:+ s)
        | _ => raise TypeError
        end;
  real_download_url ← get_direct_download_url url 3;
  real_download_url ←
    match real_download_url with
    | Some href => if String.eqb href "" then raise OtherException else mret href
    | None => raise OtherException
    end;
  response ← session_get real_download_url;
  (if status_ok response then mret tt else raise RequestException);;
  total_length ← match content_length response with
                 | None => mret None
                 | Some (Ok n) => mret (Some n)
                 | Some (Raise e) => raise e
                 end;
  let temp_file := with_suffix file_name ".tmp" in
  write_file temp_file [];;
  downloaded_length ←
    write_chunks song_id temp_file total_length (body response) [] 0;
  match body_error response with
  | Some e => raise e
  | None => mret tt
  end;;
  rename temp_file file_name;;
  valid ← verify_zip_file file_name;
  (if (valid : bool) then mret tt else raise OtherException);;
  song_file_paths ←
    (if unzip_songs then
       try_except
         (extracted_files ← extract_archive file_name song_id delete_zip;
          song_set "extracted" (PyInt 1);;
          mret extracted_files)
         (λ _, log ExtractionFailed;;
               song_set "extracted" (PyInt 0);;
               mret [file_name])
     else song_set "extracted" (PyInt 0);; mret [file_name]);
  song_set "file_path" (PyList song_file_paths);;
  song_set "downloaded" (PyInt 1);;
  song_set "download_size" (PyInt downloaded_length);;
  log (Downloaded downloaded_length);;
  emit_id download_finished song_id;;
  emit_id song_download_completed song_id.

(** The [except] clauses of the retry loop: a [RequestException] is
    logged; any other exception is logged and the final and temporary
    files are deleted. *)
Definition attempt_handler (file_name : string) (attempt : nat) (e : exn)
  : M unit :=
  if is_request_exception e then log (NetworkError attempt)
  else
    log (AttemptFailed attempt);;
    final_exists ← path_exists file_name;
    (if (final_exists : bool) then unlink file_name else mret tt);;
    let temp_file := with_suffix file_name ".tmp" in
    temp_exists ← path_exists temp_file;
    (if (temp_exists : bool) then unlink temp_file else mret tt).

(** One iteration up to the end of its [except] clause: [true] when the
    [try] block returned. *)
Definition attempt_once (song_id : pyval) (file_name : string)
    (unzip_songs delete_zip : bool) (attempt : nat) : M bool :=
  try_except
    (attempt_body song_id file_name unzip_songs delete_zip;; mret true)
    (λ e, attempt_handler file_name attempt e;; mret false).

(** [min(2 ** (attempt - 1) + random.uniform(0, 1), 30)]. *)
Definition sleep_time (attempt : nat) : Q :=
  Qmin (inject_Z (2 ^ (Z.of_nat attempt - 1)) + uniform01 E attempt) 30.

(** The loop [for attempt in range(1, max_retries + 1)] with [remaining]
    iterations left: [true] when an iteration returned. *)
Fixpoint attempts (song_id : pyval) (file_name : string)
    (unzip_songs delete_zip : bool) (remaining : nat) : M bool :=
  match remaining with
  | 0 => mret false
  | S remaining' =>
      let attempt := max_retries + 1 - remaining in
      returned ← attempt_once song_id file_name unzip_songs delete_zip attempt;
      if (returned : bool) then mret true
      else
        (if attempt <? max_retries then
           log (Retrying (sleep_time attempt));;
           sleep Backoff (sleep_time attempt)
         else mret tt);;
        attempts song_id file_name unzip_songs delete_zip remaining'
  end.

(** [SongDownloader.download_song]. *)
Definition download_song (unzip_songs delete_zip : bool) : M unit :=
  song_id ← song_item "song_id";
  artist ← song_item "artist";
  title ← song_item "title";
  file_name ← of_result (sanitize_filename (list_repr E) artist title song_id);
  already ← (file_exists ← path_exists file_name;
             if (file_exists : bool) then verify_zip_file file_name
             else mret false);
  if (already : bool) then
    log AlreadyValid;;
    song_set "file_path" (PyList [file_name]);;
    song_set "downloaded" (PyInt 1);;
    emit_id download_finished song_id
  else
    file_exists ← path_exists file_name;
    (if (file_exists : bool) then unlink file_name else mret tt);;
    returned ← attempts song_id file_name unzip_songs delete_zip max_retries;
    if (returned : bool) then mret tt
    else
      log (AllAttemptsFailed max_retries);;
      song_set "downloaded" (PyInt 0);;
      emit_id (λ id, download_failed id
                 ("Download failed after " +:+ pretty max_retries +:+ " attempts"))
              song_id.

(** The retry loop as its trace shows it: the failure of an attempt, which
    either [except] clause logs, and the delay slept before the next one. *)
Inductive retry_event :=
  | Failed (attempt : nat)
  | Slept (secs : Q).

Definition retry_view (e : event) : option retry_event :=
  match e with
  | Log (NetworkError attempt) => Some (Failed attempt)
  | Log (AttemptFailed attempt) => Some (Failed attempt)
  | Sleep Backoff secs => Some (Slept secs)
  | _ => None
  end.

(** The trace of a loop whose first [n] attempts fail: each failure is
    followed by its delay, except the failure of the last attempt the loop
    allows. *)
Definition retry_schedule (n : nat) : list retry_event :=
  flat_map (λ attempt,
              Failed attempt ::
              if attempt <? max_retries then [Slept (sleep_time attempt)] else [])
           (seq 1 n).

End Fetcher.

(** A computation is silent when its trace shows nothing of the retry
    loop: no failure of an attempt and no backoff delay. *)
Definition silent {A} (m : M A) : Prop :=
  ∀ w, omap retry_view (m w).2 = [].

End Downloader.

(** ** The download orchestrator ([threads.py]) *)

Module Threads.
Import Downloader.

Section Orchestrator.

Variable E : environment.

Definition retries : nat := 3.

(** [self.db_manager.update_song(song)]. *)
Definition db_update_song : M unit := λ w,
  match Database.update_song (song w) (db w) with
  | (Ok _, tbl) =>
      (Ok tt,
       World (song w) (files w) (requests w) tbl
             (downloaded_song_count w) (stop_downloading_flag w), [])
  | (Raise e, _) => (Raise e, w, [])
  end.

Definition count_download : M unit := λ w,
  (Ok tt,
   World (song w) (files w) (requests w) (db w)
         (S (downloaded_song_count w)) (stop_downloading_flag w), []).

Definition get_song : M pydict := λ w, (Ok (song w), w, []).

Definition get_stop_flag : M bool := λ w, (Ok (stop_downloading_flag w), w, []).

(** The loop [for attempt in range(retries)] of [download_and_update],
    with [remaining] iterations left.  The [try] block calls the fetcher,
    marks the song downloaded, counts it and updates its row; the [except]
    clause waits before another attempt or reports the failure. *)
Fixpoint outer_attempts (unzip_songs delete_zip : bool) (remaining : nat)
  : M unit :=
  match remaining with
  | 0 => mret tt
  | S remaining' =>
      let attempt := retries - remaining in
      returned ←
        try_except
          (download_song E unzip_songs delete_zip;;
           song_set "downloaded" (PyInt 1);;
           count_download;;
           db_update_song;;
           mret true)
          (λ e,
             title ← song_item "title";
             log (OuterAttemptFailed (attempt + 1) e);;
             (if attempt <? retries - 1 then
                sleep Jitter (uniform15 E attempt)
              else
                log (OuterGaveUp e);;
                tell (Emit (error title e));;
                song_id ← song_item "song_id";
                emit_id (λ id, song_failed id e) song_id);;
             mret false);
      if (returned : bool) then mret tt
      else outer_attempts unzip_songs delete_zip remaining'
  end.

(** [download_and_update], the function [DownloadThread.run] submits to
    the pool for each song. *)
Definition download_and_update (unzip_songs delete_zip : bool) : M unit :=
  stop ← get_stop_flag;
  if (stop : bool) then mret tt
  else
    downloaded ← song_item "downloaded";
    if bool_decide (downloaded = PyInt 0) then
      s ← get_song;
      tell (Emit (song_started s));;
      outer_attempts unzip_songs delete_zip retries
    else mret tt.

End Orchestrator.

(** A session on which every request fails, and a track the catalog
    holds as not downloaded. *)
Definition offline : environment :=
  {| session := λ _, GetRaises RequestException;
     zip_ok := λ _, true;
     handle_zip_extraction := λ fs _ _ _, (fs, Ok []);
     list_repr := λ _, "[]";
     uniform01 := λ _, (1 # 2)%Q;
     uniform15 := λ _, 3%Q |}.

Definition pending_track : pydict :=
  <["downloaded" := PyInt 0]> (Scraper.track "KV100" "2024-01-01").

Definition pending_row : Database.song_row :=
  {| Database.song_id := Database.SqlText "KV100";
     Database.artist := Database.SqlText "Queen";
     Database.artist_url := Database.SqlText "/queen.html";
     Database.title := Database.SqlText "Song";
     Database.title_url := Database.SqlText "/song.html";
     Database.order_date := Database.SqlText "2024-01-01";
     Database.download_url := Database.SqlText "/my/download.html?id=1";
     Database.file_path := Database.SqlJson (PyList []);
     Database.downloaded := Database.SqlInt 0;
     Database.extracted := Database.SqlInt 0 |}.

Definition pending_world : world :=
  {| song := pending_track; files := ∅; requests := 0; db := [pending_row];
     downloaded_song_count := 0; stop_downloading_flag := false |}.

(** The same track with its archive already in the download directory. *)
Definition cached_world : world :=
  {| song := pending_track;
     files := {[ "Queen - Song - KV100.zip" := [Byte.x50; Byte.x4b] ]};
     requests := 0; db := [pending_row];
     downloaded_song_count := 0; stop_downloading_flag := false |}.

(** A session that resolves the download link at every attempt, cuts the
    first transfer after one chunk and refuses the later ones; [cut] is the
    exception that ends the first transfer. *)
Definition cutting (cut : exn) : environment :=
  {| session := λ n,
       if Nat.even n then
         Replies {| status_ok := true;
                    x_file_href := Some "https://cdn.example/kv100.zip";
                    content_length := None; body := []; body_error := None |}
       else if n =? 1 then
         Replies {| status_ok := true; x_file_href := None;
                    content_length := Some (Ok 4096%Z);
                    body := [[Byte.x50; Byte.x4b]];
                    body_error := Some cut |}
       else GetRaises RequestException;
     zip_ok := λ _, true;
     handle_zip_extraction := λ fs _ _ _, (fs, Ok []);
     list_repr := λ _, "[]";
     uniform01 := λ _, (1 # 2)%Q;
     uniform15 := λ _, 3%Q |}.

(** A session that resolves the download link at the first request and
    serves the archive in three chunks, the second of them empty, at the
    next one. *)
Definition serving : environment :=
  {| session := λ n,
       if n =? 0 then
         Replies {| status_ok := true;
                    x_file_href := Some "https://cdn.example/kv100.zip";
                    content_length := None; body := []; body_error := None |}
       else
         Replies {| status_ok := true; x_file_href := None;
                    content_length := Some (Ok 4%Z);
                    body := [[Byte.x50; Byte.x4b]; []; [Byte.x03; Byte.x04]];
                    body_error := None |};
     zip_ok := λ content, length content =? 4;
     handle_zip_extraction := λ fs _ _ _, (fs, Ok []);
     list_repr := λ _, "[]";
     uniform01 := λ _, (1 # 2)%Q;
     uniform15 := λ _, 3%Q |}.

End Threads.

(** * Properties of the catalog store *)

Section CatalogStore.
Import Database.

Implicit Types (song : pydict) (tbl : song_table).

(** ** Validation of the identifier *)

Lemma falsy_identifier song :
  song !! "song_id" = None ∨ song !! "song_id" = Some PyNone
    ∨ song !! "song_id" = Some (PyStr "") →
  truthy (dict_get song "song_id") = false.
Proof. unfold dict_get. intros [-> | [-> | ->]]; reflexivity. Qed.

Lemma truthy_nonempty_str s : s ≠ "" → truthy (PyStr s) = true.
Proof.
  intros Hs. simpl. apply negb_true_iff, String.eqb_neq. exact Hs.
Qed.

(** C9.  A record whose identifier is absent, [None] or the empty string is
    refused by [save_song] with [ValueError], and neither the record nor
    the table changes; a record whose identifier is a non-empty string is
    never refused with that error. *)
Theorem save_song_validates_identifier song tbl :
  (song !! "song_id" = None ∨ song !! "song_id" = Some PyNone
     ∨ song !! "song_id" = Some (PyStr "") →
   save_song song tbl = (Raise ValueError, song, tbl))
  ∧ (∀ s, song !! "song_id" = Some (PyStr s) → s ≠ "" →
     (save_song song tbl).1.1 ≠ Raise ValueError).
Proof.
  split.
  - intros H. unfold save_song.
    rewrite (falsy_identifier _ H), orb_true_r. reflexivity.
  - intros s Hid Hs. unfold save_song.
    assert (song ≠ ∅) as Hne.
    { intros ->. rewrite lookup_empty in Hid. discriminate. }
    rewrite bool_decide_eq_false_2 by exact Hne.
    unfold dict_get at 1. rewrite Hid. simpl default.
    rewrite (truthy_nonempty_str _ Hs). simpl.
    destruct (insert_params _); simpl; discriminate.
Qed.

Lemma save_song_validates_identifier_witness :
  save_song {[ "artist" := PyStr "Queen" ]} [] =
    (Raise ValueError, {[ "artist" := PyStr "Queen" ]}, [])
  ∧ (save_song {[ "song_id" := PyStr "KV100" ]} []).1.1 ≠ Raise ValueError.
Proof.
  split.
  - apply (proj1 (save_song_validates_identifier
                    {[ "artist" := PyStr "Queen" ]} [])).
    left. reflexivity.
  - apply (proj2 (save_song_validates_identifier
                    {[ "song_id" := PyStr "KV100" ]} []) "KV100").
    + reflexivity.
    + discriminate.
Defined.

(** ** Required fields *)

(** A required field that is absent from the record is stored as
    ["Unknown"]. *)
Lemma save_song_absent_fields :
  save_song {[ "song_id" := PyStr "KV100" ]} [] =
    (Ok tt,
     {[ "song_id" := PyStr "KV100"; "artist" := PyStr "Unknown";
        "title" := PyStr "Unknown" ]},
     [ {| song_id := SqlText "KV100"; artist := SqlText "Unknown";
          artist_url := SqlText ""; title := SqlText "Unknown";
          title_url := SqlText ""; order_date := SqlNull;
          download_url := SqlText ""; file_path := SqlJson (PyList []);
          downloaded := SqlInt 0; extracted := SqlInt 0 |} ]).
Proof.
  vm_compute. reflexivity.
Qed.


(** ** Upsert by identifier *)

Lemma save_song_table song tbl :
  (save_song song tbl).2 =
    match written song with
    | Some r => insert_or_replace r tbl
    | None => tbl
    end.
Proof.
  unfold written, save_song.
  destruct (bool_decide (song = ∅) || negb (truthy (dict_get song "song_id")));
    [reflexivity |].
  destruct (insert_params (fill_required song)); reflexivity.
Qed.

Lemma save_all_written songs tbl :
  save_all songs tbl =
    foldl (λ t r, insert_or_replace r t) tbl (omap written songs).
Proof.
  unfold save_all. revert tbl.
  induction songs as [| song songs IH]; intros tbl; [reflexivity |].
  cbn [foldl omap list_omap]. rewrite IH, save_song_table.
  destruct (written song); reflexivity.
Qed.

Lemma rows_of_insert_or_replace id (r : song_row) tbl :
  rows_of id (insert_or_replace r tbl) =
    if decide (song_id r = id) then [r] else rows_of id tbl.
Proof.
  unfold rows_of, insert_or_replace. rewrite filter_app.
  destruct (decide (song_id r = id)) as [<- | Hne].
  - rewrite filter_cons_True, filter_nil by reflexivity.
    replace (filter _ (filter _ tbl)) with (@nil song_row); [reflexivity |].
    symmetry. induction tbl as [| r' tbl IH]; [reflexivity |].
    destruct (decide (song_id r' = song_id r)) as [Heq | Hneq].
    + rewrite (filter_cons_False _ r') by (intros H; exact (H Heq)). exact IH.
    + rewrite (filter_cons_True _ r') by exact Hneq.
      rewrite filter_cons_False by exact Hneq. exact IH.
  - rewrite filter_cons_False, filter_nil, app_nil_r by exact Hne.
    induction tbl as [| r' tbl IH]; [reflexivity |].
    destruct (decide (song_id r' = id)) as [Heq | Hneq].
    + rewrite (filter_cons_True (λ r0, song_id r0 ≠ song_id r) r')
        by (rewrite Heq; intros H; exact (Hne (eq_sym H))).
      rewrite !filter_cons_True by exact Heq. f_equal. exact IH.
    + rewrite (filter_cons_False (λ r0, song_id r0 = id) r') by exact Hneq.
      destruct (decide (song_id r' = song_id r)) as [Heq' | Hneq'].
      * rewrite filter_cons_False by (intros H; exact (H Heq')). exact IH.
      * rewrite filter_cons_True by exact Hneq'.
        rewrite filter_cons_False by exact Hneq. exact IH.
Qed.

Lemma insert_or_replace_NoDup (r : song_row) tbl :
  NoDup (song_id <$> tbl) → NoDup (song_id <$> insert_or_replace r tbl).
Proof.
  intros Hnd. unfold insert_or_replace. rewrite fmap_app.
  apply NoDup_app. split; [| split].
  - eapply sublist_NoDup; [exact Hnd |].
    apply fmap_sublist, sublist_filter.
  - intros id Hin Hin'. apply list_elem_of_fmap in Hin as (r' & -> & Hr').
    apply list_elem_of_filter in Hr' as [Hne _].
    apply list_elem_of_singleton in Hin'. exact (Hne Hin').
  - apply NoDup_singleton.
Qed.

Lemma rows_of_nil_iff id (l : song_table) :
  rows_of id l = [] ↔ id ∉ song_id <$> l.
Proof.
  unfold rows_of. split.
  - intros Hnil Hin. apply list_elem_of_fmap in Hin as (r & -> & Hr).
    assert (r ∈ filter (λ r0, song_id r0 = song_id r) l) as Hf
      by (apply list_elem_of_filter; split; [reflexivity | exact Hr]).
    rewrite Hnil in Hf. inversion Hf.
  - intros Hnot. destruct (filter _ l) as [| r l'] eqn:E; [reflexivity |].
    exfalso. apply Hnot.
    assert (r ∈ filter (λ r0, song_id r0 = id) l) as Hf
      by (rewrite E; left).
    apply list_elem_of_filter in Hf as [<- Hr].
    apply list_elem_of_fmap. exists r. split; [reflexivity | exact Hr].
Qed.

Lemma upsert_rows (w : song_table) :
  let tbl := foldl (λ t r, insert_or_replace r t) [] w in
  NoDup (song_id <$> tbl)
  ∧ ∀ id, rows_of id tbl = option_list (last (rows_of id w)).
Proof.
  induction w as [| r w [IHnd IHrows]] using rev_ind.
  - split; [constructor | reflexivity].
  - cbn zeta. rewrite foldl_app. cbn [foldl]. split.
    + apply insert_or_replace_NoDup, IHnd.
    + intros id. rewrite rows_of_insert_or_replace.
      unfold rows_of at 2. rewrite filter_app.
      destruct (decide (song_id r = id)) as [Heq | Hne].
      * rewrite filter_cons_True, filter_nil by exact Heq.
        rewrite last_snoc. reflexivity.
      * rewrite filter_cons_False, filter_nil, app_nil_r by exact Hne.
        apply IHrows.
Qed.

Lemma upsert_keys (w : song_table) :
  song_id <$> foldl (λ t r, insert_or_replace r t) [] w
  ≡ₚ remove_dups (song_id <$> w).
Proof.
  destruct (upsert_rows w) as [Hnd Hrows].
  apply NoDup_Permutation; [exact Hnd | apply NoDup_remove_dups |].
  intros id. rewrite elem_of_remove_dups.
  destruct (decide (id ∈ song_id <$> w)) as [Hin | Hout].
  - split; [intros _; exact Hin | intros _].
    destruct (decide (id ∈ song_id <$>
      foldl (λ t r, insert_or_replace r t) [] w))
      as [H | H]; [exact H | exfalso].
    apply rows_of_nil_iff in H. rewrite Hrows in H.
    destruct (rows_of id w) as [| r l] eqn:E.
    + apply rows_of_nil_iff in E. exact (E Hin).
    + destruct (last_is_Some (r :: l)) as [_ Hl].
      destruct (Hl ltac:(discriminate)) as [x Hx].
      rewrite Hx in H. discriminate.
  - split; [intros H; exfalso | intros H; exact (False_ind _ (Hout H))].
    apply rows_of_nil_iff in Hout.
    pose proof (Hrows id) as Hr. rewrite Hout in Hr. simpl in Hr.
    apply rows_of_nil_iff in Hr. exact (Hr H).
Qed.

(** The reassignment of a required field does not change what the INSERT
    reads. *)
Lemma insert_params_fill song k :
  k = "artist" ∨ k = "title" →
  insert_params (<[k := dict_get_default song k (PyStr "Unknown")]> song)
  = insert_params song.
Proof.
  intros Hk. destruct (song !! k) as [v |] eqn:E.
  - unfold dict_get_default. rewrite E. cbn [from_option].
    rewrite insert_id by exact E. reflexivity.
  - unfold insert_params, file_paths_of, dict_get, dict_get_default.
    destruct Hk as [-> | ->]; rewrite E;
      rewrite lookup_insert_eq, !lookup_insert_ne by discriminate;
      rewrite ?E; reflexivity.
Qed.

Lemma fill_required_params song :
  truthy (dict_get song "song_id") = true →
  insert_params (fill_required song) = insert_params song.
Proof.
  intros Hid. unfold fill_required, required_fields. cbn [foldl].
  rewrite Hid.
  destruct (truthy (dict_get song "artist")).
  - destruct (truthy (dict_get song "title")); [reflexivity |].
    apply insert_params_fill. right. reflexivity.
  - match goal with
    | |- context [if truthy (dict_get ?s "title") then _ else _] =>
        destruct (truthy (dict_get s "title"))
    end.
    + apply insert_params_fill. left. reflexivity.
    + rewrite insert_params_fill by (right; reflexivity).
      apply insert_params_fill. left. reflexivity.
Qed.

Lemma bound_value v :
  is_list v = false →
  bind_param v = Some (integer_column v)
  ∧ text_affinity (integer_column v) = text_column v.
Proof. destruct v; intros H; first [discriminate H | split; reflexivity]. Qed.

Lemma is_list_default song k dflt :
  is_list (dict_get song k) = false → is_list dflt = false →
  is_list (dict_get_default song k dflt) = false.
Proof.
  unfold dict_get, dict_get_default. destruct (song !! k); intros H1 H2;
    assumption.
Qed.

Lemma truthy_identifier song :
  truthy (dict_get song "song_id") = true →
  song ≠ ∅ ∧ song !! "song_id" = Some (dict_get song "song_id").
Proof.
  unfold dict_get. intros H. split.
  - intros ->. rewrite lookup_empty in H. discriminate H.
  - destruct (song !! "song_id"); [reflexivity | discriminate H].
Qed.

(** A call that upserts writes a row that reflects the record. *)
Lemma upserts_written song :
  upserts song = true → ∃ r, written song = Some r ∧ reflects song r.
Proof.
  unfold upserts. intros H. apply andb_true_iff in H as [Hid Hall].
  cbn [forallb bound_keys] in Hall.
  repeat match type of Hall with
  | _ && _ = true =>
      let H1 := fresh "Hk" in
      apply andb_true_iff in Hall as [H1 Hall];
      apply negb_true_iff in H1
  end.
  clear Hall.
  destruct (truthy_identifier song Hid) as [Hne Hlook].
  unfold written, save_song.
  rewrite bool_decide_eq_false_2 by exact Hne. rewrite Hid. cbn [negb orb].
  rewrite (fill_required_params song Hid).
  unfold insert_params. rewrite Hlook. cbn [mbind option_bind].
  repeat match goal with
  | |- context [bind_param ?v] =>
      rewrite (proj1 (bound_value v
                        ltac:(first [assumption
                                    | apply is_list_default;
                                      [assumption | reflexivity]])));
      cbn [mbind option_bind]
  end.
  unfold insert_or_replace. cbn [filter list_filter app last].
  eexists. split; [reflexivity |].
  unfold reflects, stored_key.
  cbn [song_id artist artist_url title title_url order_date download_url
       file_path downloaded extracted].
  repeat split;
    apply bound_value;
    first [assumption | apply is_list_default; [assumption | reflexivity]].
Qed.

Lemma bind_param_default_Some song k dflt x :
  bind_param (dict_get_default song k dflt) = Some x →
  negb (is_list (dict_get song k)) = true.
Proof.
  unfold dict_get, dict_get_default.
  destruct (song !! k) as [[| | |] |]; cbn; intros H;
    first [reflexivity | discriminate H].
Qed.

Lemma insert_params_binds song r :
  insert_params song = Some r →
  forallb (λ k, negb (is_list (dict_get song k))) bound_keys = true.
Proof.
  unfold insert_params. intros H.
  assert (negb (is_list (dict_get song "song_id")) = true) as Hid.
  { unfold dict_get. destruct (song !! "song_id") as [[| | |] |];
      first [reflexivity | discriminate H]. }
  destruct (song !! "song_id" ≫= bind_param); [| discriminate H].
  cbn [mbind option_bind] in H.
  repeat match type of H with
  | context [bind_param ?v] =>
      let E := fresh "E" in
      destruct (bind_param v) eqn:E; cbn [mbind option_bind] in H;
        [apply bind_param_default_Some in E | discriminate H]
  end.
  cbn [forallb bound_keys]. unfold dict_get_default in *.
  repeat match goal with
  | E : negb (is_list (dict_get song ?k)) = true |- _ =>
      rewrite E; clear E
  end.
  reflexivity.
Qed.

(** A call that does not upsert raises and writes nothing. *)
Lemma not_upserts_written song :
  upserts song = false → written song = None.
Proof.
  unfold upserts, written, save_song. intros H.
  destruct (truthy (dict_get song "song_id")) eqn:Hid;
    [| rewrite orb_true_r; reflexivity].
  destruct (truthy_identifier song Hid) as [Hne Hlook].
  rewrite bool_decide_eq_false_2 by exact Hne. cbn [negb orb andb] in *.
  rewrite (fill_required_params song Hid).
  destruct (insert_params song) as [r |] eqn:E; [| reflexivity].
  apply insert_params_binds in E. rewrite E in H. discriminate H.
Qed.

Lemma written_upserts (songs : list pydict) :
  Forall2 reflects (filter (λ song, upserts song = true) songs)
    (omap written songs).
Proof.
  induction songs as [| song songs IH]; [constructor |].
  cbn [omap list_omap]. destruct (upserts song) eqn:E.
  - destruct (upserts_written song E) as (r & -> & Hr).
    rewrite filter_cons_True by exact E. constructor; assumption.
  - rewrite (not_upserts_written song E).
    rewrite filter_cons_False by (rewrite E; discriminate). exact IH.
Qed.

Lemma reflects_keys (songs : list pydict) (w : song_table) :
  Forall2 reflects songs w → song_id <$> w = stored_key <$> songs.
Proof.
  induction 1 as [| song r songs w [Hkey _] _ IH]; [reflexivity |].
  cbn [fmap list_fmap]. rewrite Hkey. f_equal. exact IH.
Qed.

(** C6.  After any run of [save_song] calls on an empty table, the calls
    that upsert being those whose record has a true identifier and binds no
    list: the keys of the table are pairwise distinct and are exactly the
    distinct identifiers upserted; the table holds, under each of them, one
    row, which reflects the record of the last upsert of that identifier;
    and the number of rows is the number of distinct identifiers
    upserted. *)
Theorem upsert_uniqueness (songs : list pydict) :
  let tbl := save_all songs [] in
  let upserted := filter (λ song, upserts song = true) songs in
  NoDup (song_id <$> tbl)
  ∧ song_id <$> tbl ≡ₚ remove_dups (stored_key <$> upserted)
  ∧ (∀ key, key ∈ stored_key <$> upserted →
       ∃ song r,
         last (filter (λ s, stored_key s = key) upserted) = Some song
         ∧ rows_of key tbl = [r]
         ∧ reflects song r)
  ∧ length tbl = length (remove_dups (stored_key <$> upserted)).
Proof.
  cbn zeta. rewrite save_all_written.
  pose proof (written_upserts songs) as HF.
  pose proof (reflects_keys _ _ HF) as Hkeys.
  destruct (upsert_rows (omap written songs)) as [Hnd Hrows].
  pose proof (upsert_keys (omap written songs)) as Hperm.
  rewrite Hkeys in Hperm.
  split; [exact Hnd |]. split; [exact Hperm |]. split.
  - intros key Hin.
    apply list_elem_of_fmap in Hin as (song0 & -> & Hin).
    assert (Forall2 reflects
              (filter (λ s, stored_key s = stored_key song0)
                 (filter (λ song, upserts song = true) songs))
              (rows_of (stored_key song0) (omap written songs))) as HFk.
    { unfold rows_of. apply Forall2_filter; [| exact HF].
      intros x y [Hxy _]. rewrite Hxy. reflexivity. }
    destruct (last (filter (λ s, stored_key s = stored_key song0)
                      (filter (λ song, upserts song = true) songs)))
      as [song |] eqn:Hlast.
    + apply Forall2_last in HFk. rewrite Hlast in HFk.
      inversion HFk as [song' r Hr Hs Hl |]; subst.
      exists song, r. split; [reflexivity |].
      split; [| exact Hr]. rewrite Hrows, <- Hl. reflexivity.
    + exfalso. apply last_None in Hlast.
      assert (song0 ∈ filter (λ s, stored_key s = stored_key song0)
                         (filter (λ song, upserts song = true) songs)) as Hmem
        by (apply list_elem_of_filter; split; [reflexivity | exact Hin]).
      rewrite Hlast in Hmem. inversion Hmem.
  - rewrite <- (length_fmap song_id). apply Permutation_length, Hperm.
Qed.

Lemma upsert_uniqueness_witness :
  length (save_all upsert_run []) = 2
  ∧ ∃ r, rows_of (SqlText "KV100") (save_all upsert_run []) = [r]
         ∧ artist r = SqlText "Queen and Bowie".
Proof.
  destruct (upsert_uniqueness upsert_run) as (_ & _ & Hlast & Hlen).
  split; [rewrite Hlen; reflexivity |].
  destruct (Hlast (SqlText "KV100")) as (song & r & Hsong & Hrows & Hr).
  - left.
  - exists r. split; [exact Hrows |].
    destruct Hr as (_ & -> & _).
    assert (song = sample_track "KV100" "Queen and Bowie") as ->
      by (apply (inj Some); rewrite <- Hsong; reflexivity).
    reflexivity.
Defined.

(** ** The cap of the operation log *)

Lemma string_leb_trans (a b c : string) :
  String.leb a b = true → String.leb b c = true → String.leb a c = true.
Proof.
  unfold String.leb. intros Hab Hbc.
  destruct (String.compare a b) eqn:Eab; [| | discriminate].
  - apply String.compare_eq_iff in Eab. subst b. exact Hbc.
  - destruct (String.compare b c) eqn:Ebc; [| | discriminate].
    + apply String.compare_eq_iff in Ebc. subst c. rewrite Eab. reflexivity.
    + apply String_as_OT.cmp_lt in Eab, Ebc.
      pose proof (String_as_OT.lt_trans _ _ _ Eab Ebc) as Hac.
      apply String_as_OT.cmp_lt in Hac. unfold String_as_OT.cmp in Hac.
      rewrite Hac. reflexivity.
Qed.

Lemma insert_newest_first_perm (r : log_row) (l : log_table) :
  insert_newest_first r l ≡ₚ r :: l.
Proof.
  induction l as [| r' l IH]; [reflexivity |]. simpl.
  destruct (String.leb _ _); [reflexivity |].
  rewrite IH. apply Permutation_swap.
Qed.

Lemma insert_newest_first_sorted (r : log_row) (l : log_table) :
  StronglySorted newer_eq l → StronglySorted newer_eq (insert_newest_first r l).
Proof.
  induction 1 as [| r' l Hl IH Hall]; simpl.
  - repeat constructor.
  - destruct (String.leb (start_time r') (start_time r)) eqn:E.
    + constructor; [constructor; assumption |].
      constructor; [exact E |].
      eapply Forall_impl; [exact Hall |].
      intros x Hx. unfold newer_eq in *. eapply string_leb_trans; eassumption.
    + constructor; [exact IH |].
      rewrite insert_newest_first_perm. constructor; [| exact Hall].
      unfold newer_eq.
      destruct (String.leb_total (start_time r) (start_time r')) as [H | H];
        [exact H | congruence].
Qed.

Lemma sort_newest_first_ok : orders_newest_first sort_newest_first.
Proof.
  intros l. unfold sort_newest_first. induction l as [| r l [IHp IHs]]; simpl.
  - split; [reflexivity | constructor].
  - split.
    + rewrite insert_newest_first_perm, IHp. reflexivity.
    + apply insert_newest_first_sorted, IHs.
Qed.

Lemma filter_all {A} (P : A → Prop) `{∀ x, Decision (P x)} (l : list A) :
  Forall P l → filter P l = l.
Proof.
  induction 1 as [| x l Hx _ IH]; [reflexivity |].
  rewrite filter_cons_True by exact Hx. f_equal. exact IH.
Qed.

Lemma filter_none {A} (P : A → Prop) `{∀ x, Decision (P x)} (l : list A) :
  Forall (λ x, ¬ P x) l → filter P l = [].
Proof.
  induction 1 as [| x l Hx _ IH]; [reflexivity |].
  rewrite filter_cons_False by exact Hx. exact IH.
Qed.

(** Rows are selected by key: when keys are distinct, keeping the rows
    whose key is among those of a prefix keeps exactly the prefix. *)
Lemma filter_keys_prefix (l1 l2 : log_table) :
  NoDup (log_id <$> (l1 ++ l2)) →
  filter (λ r, log_id r ∈ log_id <$> l1) (l1 ++ l2) = l1.
Proof.
  intros Hnd. rewrite fmap_app in Hnd. apply NoDup_app in Hnd as (_ & Hdis & _).
  rewrite filter_app, (filter_all _ l1), (filter_none _ l2).
  - apply app_nil_r.
  - apply Forall_forall. intros r Hr Hin.
    apply (Hdis (log_id r)); [exact Hin |].
    apply list_elem_of_fmap. exists r. split; [reflexivity | exact Hr].
  - apply Forall_forall. intros r Hr.
    apply list_elem_of_fmap. exists r. split; [reflexivity | exact Hr].
Qed.

Lemma set_completed_keys now id st dtl (logs : log_table) :
  log_id <$> set_completed now id st dtl logs = log_id <$> logs.
Proof.
  unfold set_completed. rewrite <- list_fmap_compose.
  apply list_fmap_ext. intros _ r _. simpl.
  destruct (decide (log_id r = id)); reflexivity.
Qed.

Lemma purge_old_perm order_by (logs : log_table) :
  orders_newest_first order_by → NoDup (log_id <$> logs) →
  purge_old order_by logs ≡ₚ take max_log_entries (order_by logs).
Proof.
  intros Hord Hnd. destruct (Hord logs) as [Hperm _]. unfold purge_old.
  cbn zeta. set (keep := log_id <$> take max_log_entries (order_by logs)).
  trans (filter (λ r, log_id r ∈ keep) (order_by logs)).
  { apply filter_Permutation. symmetry. exact Hperm. }
  subst keep.
  pose proof (filter_keys_prefix (take max_log_entries (order_by logs))
                (drop max_log_entries (order_by logs))) as Hpre.
  rewrite take_drop in Hpre. rewrite Hpre; [reflexivity |].
  rewrite Hperm. exact Hnd.
Qed.

(** Keys stay distinct: a new entry is refused when its key is taken, and
    an update only removes rows. *)
Lemma start_log_operation_NoDup id now name dtl (logs : log_table) :
  NoDup (log_id <$> logs) →
  NoDup (log_id <$> (start_log_operation id now name dtl logs).2).
Proof.
  intros Hnd. unfold start_log_operation.
  destruct (decide (id ∈ log_id <$> logs)) as [Hin | Hout]; [exact Hnd |].
  cbn. rewrite fmap_app. apply NoDup_app. split; [exact Hnd |]. split.
  - intros x Hx Hx'. apply list_elem_of_singleton in Hx'. subst x.
    exact (Hout Hx).
  - apply NoDup_singleton.
Qed.

Lemma update_log_operation_NoDup order_by now id st dtl (logs : log_table) :
  NoDup (log_id <$> logs) →
  NoDup (log_id <$> update_log_operation order_by now id st dtl logs).
Proof.
  intros Hnd. unfold update_log_operation, purge_old.
  eapply sublist_NoDup; [| apply fmap_sublist, sublist_filter].
  rewrite set_completed_keys. exact Hnd.
Qed.

(** C7.  A call of [update_log_operation] on a log with distinct keys
    leaves at most 100 rows, namely [min 100 n] of the [n] rows it found;
    the rows left are rows of the log after the UPDATE, in their order, and
    each of them started no earlier than every row that was purged. *)
Theorem log_cap order_by now id st dtl (logs : log_table) :
  orders_newest_first order_by →
  NoDup (log_id <$> logs) →
  let updated := set_completed now id st dtl logs in
  let logs' := update_log_operation order_by now id st dtl logs in
  length logs' ≤ 100
  ∧ length logs' = min 100 (length logs)
  ∧ logs' `sublist_of` updated
  ∧ ∀ kept purged, kept ∈ logs' → purged ∈ updated → purged ∉ logs' →
      newer_eq kept purged.
Proof.
  intros Hord Hnd. cbn zeta. unfold update_log_operation.
  set (updated := set_completed now id st dtl logs).
  assert (NoDup (log_id <$> updated)) as Hnd'
    by (unfold updated; rewrite set_completed_keys; exact Hnd).
  pose proof (purge_old_perm order_by updated Hord Hnd') as Hperm.
  destruct (Hord updated) as [Hp Hs].
  assert (length (purge_old order_by updated) = min 100 (length logs)) as Hlen.
  { rewrite Hperm, length_take, Hp. unfold updated, set_completed.
    rewrite length_fmap. reflexivity. }
  split; [rewrite Hlen; apply Nat.le_min_l |].
  split; [exact Hlen |].
  split; [apply sublist_filter |].
  intros kept purged Hk Hu Hnot.
  rewrite Hperm in Hk, Hnot. rewrite <- Hp in Hu.
  rewrite <- (take_drop max_log_entries (order_by updated)) in Hu, Hs.
  apply elem_of_app in Hu as [Hu | Hu]; [exact (False_ind _ (Hnot Hu)) |].
  exact (StronglySorted_app_1_elem_of _ _ _ _ _ Hs Hk Hu).
Qed.

Lemma log_cap_witness :
  let logs :=
    (λ n, {| log_id := pretty n; operation := "Fetch New";
             start_time := "2024-01-01T00:00:" +:+ pretty (100 + n);
             end_time := None; status := "running"; details := "" |})
      <$> seq 0 101 in
  length (update_log_operation sort_newest_first
            "2024-01-01T00:05:00" "7" "success" "done" logs) = 100.
Proof.
  cbn zeta.
  refine (eq_trans (proj1 (proj2 (log_cap sort_newest_first
            "2024-01-01T00:05:00" "7" "success" "done" _
            sort_newest_first_ok _))) _).
  - apply (bool_decide_unpack _). vm_compute. reflexivity.
  - vm_compute. reflexivity.
Defined.

End CatalogStore.

(** * Further properties of the catalog store *)

Section CatalogStoreMore.
Import Database.

Implicit Types (song : pydict) (tbl : song_table).

(** ** Lookup after a write *)

Lemma fill_required_other song k :
  k ∉ required_fields → fill_required song !! k = song !! k.
Proof.
  intros Hk. unfold fill_required, required_fields in *. cbn [foldl].
  assert ("song_id" ≠ k ∧ "artist" ≠ k ∧ "title" ≠ k) as (H1 & H2 & H3).
  { repeat split; intros <-; apply Hk;
      [left | right; left | right; right; left]. }
  repeat match goal with
  | |- context [if truthy ?v then _ else _] => destruct (truthy v)
  end;
  repeat (rewrite lookup_insert_ne by assumption);
  reflexivity.
Qed.

Lemma fill_required_identifier song :
  truthy (dict_get song "song_id") = true →
  fill_required song !! "song_id" = song !! "song_id".
Proof.
  intros Hid. unfold fill_required, required_fields. cbn [foldl].
  rewrite Hid.
  repeat match goal with
  | |- context [if truthy ?v then _ else _] => destruct (truthy v)
  end;
  repeat (rewrite lookup_insert_ne by discriminate); reflexivity.
Qed.

Lemma save_song_ok_inv song tbl song' tbl' :
  save_song song tbl = (Ok tt, song', tbl') →
  truthy (dict_get song "song_id") = true
  ∧ song' = fill_required song
  ∧ ∃ r, insert_params song' = Some r ∧ tbl' = insert_or_replace r tbl.
Proof.
  unfold save_song.
  destruct (bool_decide (song = ∅)); [discriminate |]. cbn [orb].
  destruct (truthy (dict_get song "song_id")); [| discriminate]. cbn [negb].
  destruct (insert_params (fill_required song)) as [r |] eqn:E;
    [| discriminate].
  intros [= <- <-]. split; [reflexivity |]. split; [reflexivity |].
  exists r. split; [exact E | reflexivity].
Qed.

Lemma insert_params_inv song r :
  insert_params song = Some r →
  (∃ id, song !! "song_id" = Some id
         ∧ (text_affinity <$> bind_param id) = Some (song_id r))
  ∧ bind_param (dict_get_default song "downloaded" (PyInt 0))
    = Some (downloaded r).
Proof.
  unfold insert_params. intros H.
  destruct (song !! "song_id") as [id |]; [| discriminate]. cbn in H.
  destruct (bind_param id) as [vid |] eqn:Eid; [| discriminate]. cbn in H.
  repeat match type of H with
  | context [bind_param ?v] =>
      destruct (bind_param v); cbn in H; [| discriminate]
  end.
  injection H as <-. cbn. split; [| reflexivity].
  exists id. rewrite Eid. split; reflexivity.
Qed.

(** X1.  After [save_song] returns for a track whose identifier is a
    string, [song_exists] finds the track with the flag that was written
    (the [downloaded] of the record, 0 when the record has none), and
    answers as before for every other identifier. *)
Theorem save_song_then_song_exists song tbl s song' tbl' :
  song !! "song_id" = Some (PyStr s) →
  save_song song tbl = (Ok tt, song', tbl') →
  (∃ flag, bind_param (dict_get_default song "downloaded" (PyInt 0)) = Some flag
           ∧ song_exists s tbl' = Some flag)
  ∧ ∀ s', s' ≠ s → song_exists s' tbl' = song_exists s' tbl.
Proof.
  intros Hid Hsave.
  apply save_song_ok_inv in Hsave as (Htruthy & -> & r & Hr & ->).
  apply insert_params_inv in Hr as [(id & Hid' & Hkey) Hflag].
  rewrite (fill_required_identifier _ Htruthy), Hid in Hid'.
  injection Hid' as <-. cbn in Hkey. injection Hkey as Hkey.
  unfold dict_get_default in Hflag.
  rewrite fill_required_other in Hflag
    by (unfold required_fields; intros H;
        repeat (apply elem_of_cons in H as [H | H]; [discriminate |]);
        inversion H).
  split.
  - exists (downloaded r). split; [exact Hflag |].
    unfold song_exists.
    pose proof (rows_of_insert_or_replace (SqlText s) r tbl) as Hrows.
    unfold rows_of in Hrows. rewrite Hrows.
    rewrite decide_True by (symmetry; exact Hkey). reflexivity.
  - intros s' Hne. unfold song_exists.
    pose proof (rows_of_insert_or_replace (SqlText s') r tbl) as Hrows.
    unfold rows_of in Hrows. rewrite Hrows.
    rewrite decide_False by (rewrite <- Hkey; intros [= ->]; exact (Hne eq_refl)).
    reflexivity.
Qed.

Lemma save_song_then_song_exists_witness :
  (∃ flag,
     bind_param (dict_get_default (Scraper.track "KV100" "2024-01-01")
                   "downloaded" (PyInt 0)) = Some flag
     ∧ song_exists "KV100"
         (save_song (Scraper.track "KV100" "2024-01-01") []).2 = Some flag)
  ∧ ∀ s', s' ≠ "KV100" →
      song_exists s' (save_song (Scraper.track "KV100" "2024-01-01") []).2
      = song_exists s' [].
Proof.
  apply (save_song_then_song_exists (Scraper.track "KV100" "2024-01-01") []
           "KV100" (save_song (Scraper.track "KV100" "2024-01-01") []).1.2).
  - vm_compute. reflexivity.
  - vm_compute. reflexivity.
Defined.

(** ** Updates *)

Lemma update_params_inv song r :
  update_params song = Ok r →
  (∃ id, song !! "song_id" = Some id
         ∧ (text_affinity <$> bind_param id) = Some (song_id r))
  ∧ bind_param (dict_get_default song "downloaded" (PyInt 0))
    = Some (downloaded r).
Proof.
  unfold update_params, item. intros H.
  repeat match type of H with
  | context [song !! ?k] =>
      destruct (song !! k) eqn:?; cbn in H; [| discriminate]
  end.
  repeat match type of H with
  | context [bind_param ?v] =>
      destruct (bind_param v) eqn:?; cbn in H; [| discriminate]
  end.
  injection H as <-. cbn. split.
  - eexists. split; [reflexivity |].
    match goal with E : bind_param ?p = Some ?x |- _ <$> bind_param ?p = _ =>
      rewrite E end.
    reflexivity.
  - first [assumption | reflexivity].
Qed.

Lemma update_params_missing song k :
  k ∈ ["artist"; "artist_url"; "title"; "title_url"; "order_date";
       "download_url"; "song_id"] →
  song !! k = None →
  ∃ k', update_params song = Raise (KeyError k').
Proof.
  intros Hk Hnone. unfold update_params, item.
  repeat match goal with
  | |- context [song !! ?k'] =>
      destruct (song !! k') eqn:?; cbn; [| eexists; reflexivity]
  end.
  exfalso.
  repeat (apply elem_of_cons in Hk as [-> | Hk]; [congruence |]).
  inversion Hk.
Qed.

(** X2.  [update_song] never adds or removes a row and never changes a
    key; when it raises, the table is as it was; a record that lacks one of
    the seven subscripted keys raises [KeyError]; and for a track that is
    not in the table it changes nothing, without raising for that. *)
Theorem update_song_frame song tbl :
  let '(res, tbl') := update_song song tbl in
  song_id <$> tbl' = song_id <$> tbl
  ∧ (res ≠ Ok tt → tbl' = tbl)
  ∧ (∀ k, k ∈ ["artist"; "artist_url"; "title"; "title_url"; "order_date";
               "download_url"; "song_id"] →
          song !! k = None → ∃ k', res = Raise (KeyError k'))
  ∧ (∀ s, song !! "song_id" = Some (PyStr s) → song_exists s tbl = None →
          tbl' = tbl).
Proof.
  unfold update_song.
  destruct (update_params song) as [r | e] eqn:Hp.
  - split; [| split; [| split]].
    + rewrite <- list_fmap_compose. apply list_fmap_ext. intros _ r' _. cbn.
      destruct (decide _) as [[Heq _] | _]; [symmetry; exact Heq | reflexivity].
    + intros H. exfalso. apply H. reflexivity.
    + intros k Hk Hnone.
      destruct (update_params_missing song k Hk Hnone) as [k' Hk'].
      congruence.
    + intros s Hid Hnone.
      apply update_params_inv in Hp as [(id & Hid' & Hkey) _].
      rewrite Hid in Hid'. injection Hid' as <-. cbn in Hkey.
      injection Hkey as Hkey.
      unfold song_exists in Hnone.
      destruct (filter (λ r0, song_id r0 = SqlText s) tbl) as [| r0 l] eqn:Hf;
        [| discriminate].
      rewrite <- (list_fmap_id tbl) at 2. apply list_fmap_ext.
      intros i r' Hi. cbn.
      destruct (decide _) as [[Heq _] | _]; [exfalso | reflexivity].
      assert (r' ∈ filter (λ r0, song_id r0 = SqlText s) tbl) as Hin.
      { apply list_elem_of_filter. split; [congruence |].
        eapply list_elem_of_lookup_2. exact Hi. }
      rewrite Hf in Hin. inversion Hin.
  - split; [reflexivity |]. split; [reflexivity |]. split.
    + intros k Hk Hnone.
      destruct (update_params_missing song k Hk Hnone) as [k' Hk'].
      exists k'. congruence.
    + reflexivity.
Qed.

Lemma filter_key_fmap (f : song_row → song_row) k tbl :
  (∀ r, song_id (f r) = song_id r) →
  filter (λ r, song_id r = k) (f <$> tbl)
  = f <$> filter (λ r, song_id r = k) tbl.
Proof.
  intros Hf. induction tbl as [| r0 tbl IH]; [reflexivity |].
  rewrite fmap_cons. destruct (decide (song_id r0 = k)) as [Hk | Hk].
  - rewrite !filter_cons_True by (rewrite ?Hf; exact Hk).
    rewrite fmap_cons, IH. reflexivity.
  - rewrite !filter_cons_False by (rewrite ?Hf; exact Hk). exact IH.
Qed.

(** X3.  After [update_song] returns for a track that is in the table,
    [song_exists] answers with the flag of the record (0 when the record
    has none), and as before for every other identifier. *)
Theorem update_song_then_song_exists song tbl s tbl' :
  song !! "song_id" = Some (PyStr s) →
  is_Some (song_exists s tbl) →
  update_song song tbl = (Ok tt, tbl') →
  (∃ flag, bind_param (dict_get_default song "downloaded" (PyInt 0)) = Some flag
           ∧ song_exists s tbl' = Some flag)
  ∧ ∀ s', s' ≠ s → song_exists s' tbl' = song_exists s' tbl.
Proof.
  intros Hid Hex Hupd. unfold update_song in Hupd.
  destruct (update_params song) as [r | e] eqn:Hp; [| discriminate].
  injection Hupd as <-.
  apply update_params_inv in Hp as [(id & Hid' & Hkey) Hflag].
  rewrite Hid in Hid'. injection Hid' as <-. cbn in Hkey.
  injection Hkey as Hkey.
  set (f := λ r', if decide (song_id r' = song_id r ∧ song_id r ≠ SqlNull)
                  then r else r').
  assert (∀ r0, song_id (f r0) = song_id r0) as Hf.
  { intros r0. unfold f. destruct (decide _) as [[Heq _] | _];
      [symmetry; exact Heq | reflexivity]. }
  unfold song_exists in *. split.
  - exists (downloaded r). split; [exact Hflag |].
    rewrite (filter_key_fmap f _ _ Hf).
    destruct (filter (λ r0, song_id r0 = SqlText s) tbl) as [| r0 l] eqn:E.
    + destruct Hex as [x Hx]. discriminate.
    + assert (song_id r0 = SqlText s) as Hr0.
      { assert (r0 ∈ filter (λ r1, song_id r1 = SqlText s) tbl) as Hin
          by (rewrite E; left).
        apply list_elem_of_filter in Hin as [H _]. exact H. }
      cbn. unfold f. rewrite decide_True; [reflexivity |].
      rewrite <- Hkey. split; [exact Hr0 | discriminate].
  - intros s' Hne. rewrite (filter_key_fmap f _ _ Hf). do 2 f_equal.
    rewrite <- (list_fmap_id (filter _ tbl)) at 2.
    apply list_fmap_ext. intros i r0 Hi. cbn.
    apply list_elem_of_lookup_2, list_elem_of_filter in Hi as [Hk _].
    unfold f. rewrite decide_False; [reflexivity |].
    intros [Heq _]. rewrite Hk, <- Hkey in Heq. injection Heq as ->.
    exact (Hne eq_refl).
Qed.

Lemma update_song_then_song_exists_witness :
  (∃ flag,
     bind_param (dict_get_default
                   (<["downloaded" := PyInt 1]> (Scraper.track "KV100" "2024-01-01"))
                   "downloaded" (PyInt 0)) = Some flag
     ∧ song_exists "KV100"
         (update_song
            (<["downloaded" := PyInt 1]> (Scraper.track "KV100" "2024-01-01"))
            (save_song (Scraper.track "KV100" "2024-01-01") []).2).2
       = Some flag)
  ∧ ∀ s', s' ≠ "KV100" →
      song_exists s'
        (update_song
           (<["downloaded" := PyInt 1]> (Scraper.track "KV100" "2024-01-01"))
           (save_song (Scraper.track "KV100" "2024-01-01") []).2).2
      = song_exists s' (save_song (Scraper.track "KV100" "2024-01-01") []).2.
Proof.
  apply (update_song_then_song_exists
           (<["downloaded" := PyInt 1]> (Scraper.track "KV100" "2024-01-01"))
           (save_song (Scraper.track "KV100" "2024-01-01") []).2 "KV100").
  - vm_compute. reflexivity.
  - vm_compute. eexists. reflexivity.
  - vm_compute. reflexivity.
Defined.

Lemma update_song_frame_witness :
  let '(res, tbl') :=
    update_song {[ "song_id" := PyStr "KV100" ]}
      (save_song (Scraper.track "KV100" "2024-01-01") []).2 in
  (∃ k', res = Raise (KeyError k'))
  ∧ tbl' = (save_song (Scraper.track "KV100" "2024-01-01") []).2.
Proof.
  pose proof (update_song_frame {[ "song_id" := PyStr "KV100" ]}
                (save_song (Scraper.track "KV100" "2024-01-01") []).2) as H.
  destruct (update_song _ _) as [res tbl'].
  destruct H as (_ & Hraise & Hmissing & _).
  destruct (Hmissing "artist") as [k' Hk'];
    [left | vm_compute; reflexivity |].
  split; [exists k'; exact Hk' |].
  apply Hraise. rewrite Hk'. discriminate.
Defined.

(** ** Integrity check and repair *)

Lemma filter_length_split {A} (P : A → Prop) `{∀ x, Decision (P x)}
    (l : list A) :
  length (filter P l) + length (filter (λ x, ¬ P x) l) = length l.
Proof.
  induction l as [| x l IH]; [reflexivity |].
  destruct (decide (P x)) as [Hx | Hx].
  - rewrite filter_cons_True by exact Hx.
    rewrite filter_cons_False by (intros H'; exact (H' Hx)).
    cbn. rewrite IH. reflexivity.
  - rewrite filter_cons_False by exact Hx.
    rewrite filter_cons_True by exact Hx.
    cbn. rewrite <- IH. lia.
Qed.

Lemma distinct_keys_no_duplicates tbl :
  NoDup (song_id <$> tbl) → duplicate_keys tbl = [].
Proof.
  intros Hnd. unfold duplicate_keys. apply filter_none.
  apply Forall_forall. intros k _.
  enough (length (filter (λ r, song_id r = k) tbl) ≤ 1) by lia.
  induction tbl as [| r tbl IH]; [cbn; lia |].
  rewrite fmap_cons in Hnd. apply NoDup_cons in Hnd as [Hnotin Hnd].
  destruct (decide (song_id r = k)) as [Hk | Hk].
  - rewrite filter_cons_True by exact Hk. cbn.
    replace (filter (λ r0, song_id r0 = k) tbl) with (@nil song_row);
      [cbn; lia |].
    symmetry. apply filter_none, Forall_forall. intros r' Hr' Hk'.
    apply Hnotin, list_elem_of_fmap. exists r'.
    split; [congruence | exact Hr'].
  - rewrite filter_cons_False by exact Hk. apply IH, Hnd.
Qed.

Lemma reset_download_not_missing (r : song_row) :
  ¬ missing_file_path
      (if decide (missing_file_path r) then reset_download r else r).
Proof.
  destruct (decide (missing_file_path r)) as [Hm | Hm]; [| exact Hm].
  intros [Hd _]. discriminate Hd.
Qed.

Lemma reset_download_key (r : song_row) :
  song_id (if decide (missing_file_path r) then reset_download r else r)
  = song_id r.
Proof. destruct (decide (missing_file_path r)); reflexivity. Qed.

(** A table without an invalid key and without a row that claims a
    download it has no file for is left as it is. *)
Lemma cleanup_database_clean tbl :
  Forall (λ r, ¬ invalid_id r) tbl →
  Forall (λ r, ¬ missing_file_path r) tbl →
  cleanup_database tbl = (tbl, (0, 0)).
Proof.
  intros Hvalid Hfiles. unfold cleanup_database.
  rewrite (filter_all _ tbl Hvalid).
  rewrite (filter_none invalid_id tbl)
    by (eapply Forall_impl; [exact Hvalid | intros r Hr; exact Hr]).
  rewrite (filter_none missing_file_path tbl) by exact Hfiles.
  f_equal. rewrite <- (list_fmap_id tbl) at 2. apply list_fmap_ext.
  intros i r Hi. cbn. rewrite decide_False; [reflexivity |].
  eapply Forall_forall in Hfiles; [exact Hfiles |].
  eapply list_elem_of_lookup_2. exact Hi.
Qed.

Lemma cleanup_database_result tbl :
  Forall (λ r, ¬ invalid_id r) (cleanup_database tbl).1
  ∧ Forall (λ r, ¬ missing_file_path r) (cleanup_database tbl).1.
Proof.
  unfold cleanup_database. cbn [fst]. split.
  - apply Forall_fmap, Forall_forall. intros r Hr.
    apply list_elem_of_filter in Hr as [Hr _]. cbn.
    unfold invalid_id in *. rewrite reset_download_key. exact Hr.
  - apply Forall_fmap, Forall_forall. intros r _. cbn.
    apply reset_download_not_missing.
Qed.

(** X4.  After [cleanup_database] the integrity check counts no invalid
    identifier and no row marked downloaded without a file reference; the
    first count the repair returns is the number of invalid identifiers the
    check counted before, and exactly that many rows are gone; when the keys
    of the table are distinct the check then reports a healthy table. *)
Theorem cleanup_restores_integrity tbl :
  let '(tbl', (removed_invalid, fixed_paths)) := cleanup_database tbl in
  let report := validate_database_integrity tbl' in
  invalid_ids report = 0
  ∧ missing_file_paths report = 0
  ∧ removed_invalid = invalid_ids (validate_database_integrity tbl)
  ∧ total_songs report + removed_invalid = length tbl
  ∧ (NoDup (song_id <$> tbl) → is_healthy report = true).
Proof.
  destruct (cleanup_database_result tbl) as [Hvalid Hfiles].
  unfold cleanup_database in *. cbn [fst] in *. cbn zeta.
  unfold validate_database_integrity. cbn.
  assert (filter invalid_id
            ((λ r, if decide (missing_file_path r) then reset_download r else r)
               <$> filter (λ r, ¬ invalid_id r) tbl) = []) as Hinv.
  { apply filter_none. eapply Forall_impl; [exact Hvalid |].
    intros r Hr. exact Hr. }
  rewrite Hinv. rewrite (filter_none missing_file_path _ Hfiles).
  split; [reflexivity |]. split; [reflexivity |]. split; [reflexivity |].
  split.
  - unfold get_total_song_count. rewrite length_fmap.
    pose proof (filter_length_split invalid_id tbl). lia.
  - intros Hnd. rewrite distinct_keys_no_duplicates; [reflexivity |].
    rewrite <- list_fmap_compose.
    erewrite list_fmap_ext;
      [| intros i r _; cbn; apply reset_download_key].
    eapply sublist_NoDup; [exact Hnd |].
    apply fmap_sublist, sublist_filter.
Qed.

(** X5.  [cleanup_database] is idempotent: a second pass removes and fixes
    nothing and leaves the table of the first pass; and the first pass
    keeps, as they are, the rows that had a valid identifier and were not
    marked downloaded without a file reference. *)
Theorem cleanup_database_idempotent tbl :
  cleanup_database (cleanup_database tbl).1
  = ((cleanup_database tbl).1, (0, 0))
  ∧ ∀ r, r ∈ tbl → ¬ invalid_id r → ¬ missing_file_path r →
         r ∈ (cleanup_database tbl).1.
Proof.
  split.
  - destruct (cleanup_database_result tbl) as [Hvalid Hfiles].
    apply cleanup_database_clean; assumption.
  - intros r Hr Hvalid Hfiles. unfold cleanup_database. cbn [fst].
    apply list_elem_of_fmap. exists r. split.
    + rewrite decide_False by exact Hfiles. reflexivity.
    + apply list_elem_of_filter. split; assumption.
Qed.

Lemma cleanup_restores_integrity_witness :
  let '(tbl', (removed_invalid, fixed_paths)) := cleanup_database damaged_table in
  is_healthy (validate_database_integrity damaged_table) = false
  ∧ is_healthy (validate_database_integrity tbl') = true
  ∧ removed_invalid = 1 ∧ fixed_paths = 1.
Proof.
  pose proof (cleanup_restores_integrity damaged_table) as H.
  destruct (cleanup_database damaged_table) as [tbl' [removed fixed]] eqn:E.
  destruct H as (_ & _ & _ & _ & Hhealthy).
  split; [vm_compute; reflexivity |].
  split; [apply Hhealthy, (bool_decide_unpack _); vm_compute; reflexivity |].
  vm_compute in E. injection E as _ <- <-. split; reflexivity.
Defined.

Lemma cleanup_database_idempotent_witness :
  sample_row (SqlText "KV100") (SqlText "2024-01-01") (SqlInt 1)
    (SqlJson (PyList ["a.zip"])) ∈ (cleanup_database damaged_table).1.
Proof.
  apply (proj2 (cleanup_database_idempotent damaged_table)).
  - left.
  - apply (bool_decide_unpack _). vm_compute. reflexivity.
  - apply (bool_decide_unpack _). vm_compute. reflexivity.
Defined.

(** ** The operation log within its cap *)

Lemma set_completed_unknown now id st dtl (logs : log_table) :
  id ∉ log_id <$> logs → set_completed now id st dtl logs = logs.
Proof.
  intros Hout. unfold set_completed.
  rewrite <- (list_fmap_id logs) at 2. apply list_fmap_ext.
  intros i r Hi. cbn. rewrite decide_False; [reflexivity |].
  intros <-. apply Hout, list_elem_of_fmap. exists r.
  split; [reflexivity | eapply list_elem_of_lookup_2; exact Hi].
Qed.

Lemma purge_old_within_cap order_by (logs : log_table) :
  orders_newest_first order_by → length logs ≤ max_log_entries →
  purge_old order_by logs = logs.
Proof.
  intros Hord Hlen. destruct (Hord logs) as [Hperm _]. unfold purge_old.
  cbn zeta. rewrite take_ge by (rewrite Hperm; exact Hlen).
  apply filter_all, Forall_forall. intros r Hr.
  rewrite Hperm. apply list_elem_of_fmap. exists r.
  split; [reflexivity | exact Hr].
Qed.

(** X6.  While the log holds at most 100 entries, [update_log_operation]
    purges nothing: it only sets the end time, the status and the details
    of the entry of the given identifier, and leaves the log as it is when
    no entry has that identifier. *)
Theorem update_log_operation_within_cap order_by now id st dtl
    (logs : log_table) :
  orders_newest_first order_by →
  length logs ≤ 100 →
  update_log_operation order_by now id st dtl logs
  = set_completed now id st dtl logs
  ∧ (id ∉ log_id <$> logs →
     update_log_operation order_by now id st dtl logs = logs).
Proof.
  intros Hord Hlen.
  assert (update_log_operation order_by now id st dtl logs
          = set_completed now id st dtl logs) as Heq.
  { unfold update_log_operation. apply purge_old_within_cap; [exact Hord |].
    unfold set_completed. rewrite length_fmap. exact Hlen. }
  split; [exact Heq |].
  intros Hout. rewrite Heq. apply set_completed_unknown, Hout.
Qed.

Lemma update_log_operation_within_cap_witness :
  update_log_operation sort_newest_first "2024-01-01T00:05:00" "ABCD1234"
    "success" "done" running_log
  = [ {| log_id := "0000AAAA"; operation := "Full Sync";
         start_time := "2023-12-31T23:00:00";
         end_time := Some "2023-12-31T23:10:00";
         status := "success"; details := "Sync completed." |};
      {| log_id := "ABCD1234"; operation := "Fetch New";
         start_time := "2024-01-01T00:00:00";
         end_time := Some "2024-01-01T00:05:00";
         status := "success"; details := "done" |} ]
  ∧ update_log_operation sort_newest_first "2024-01-01T00:05:00" "FFFF0000"
      "success" "done" running_log
    = running_log.
Proof.
  split.
  - etransitivity.
    + apply (proj1 (update_log_operation_within_cap sort_newest_first
                      "2024-01-01T00:05:00" "ABCD1234" "success" "done"
                      running_log sort_newest_first_ok ltac:(cbn; lia))).
    + reflexivity.
  - apply (proj2 (update_log_operation_within_cap sort_newest_first
                    "2024-01-01T00:05:00" "FFFF0000" "success" "done"
                    running_log sort_newest_first_ok ltac:(cbn; lia))).
    apply (bool_decide_unpack _). vm_compute. reflexivity.
Defined.

(** X7.  An operation started under a fresh identifier and then completed,
    in a log of fewer than 100 entries, leaves the log it found followed by
    one entry with the name and start time of the start and the end time,
    status and details of the completion. *)
Theorem operation_started_then_completed order_by id t0 name dtl0 t1 st dtl1
    (logs : log_table) :
  orders_newest_first order_by →
  id ∉ log_id <$> logs →
  length logs < 100 →
  let '(res, logs1) := start_log_operation id t0 name dtl0 logs in
  res = Ok id
  ∧ update_log_operation order_by t1 id st dtl1 logs1
    = logs ++ [ {| log_id := id; operation := name; start_time := t0;
                   end_time := Some t1; status := st; details := dtl1 |} ].
Proof.
  intros Hord Hfresh Hlen. unfold start_log_operation.
  rewrite decide_False by exact Hfresh. split; [reflexivity |].
  destruct (update_log_operation_within_cap order_by t1 id st dtl1
              (logs ++ [ {| log_id := id; operation := name; start_time := t0;
                            end_time := None; status := "running";
                            details := dtl0 |} ]) Hord) as [-> _].
  { rewrite length_app. cbn. lia. }
  unfold set_completed. rewrite fmap_app. cbn [fmap list_fmap log_id].
  rewrite decide_True by reflexivity. f_equal.
  apply (set_completed_unknown t1 id st dtl1 logs Hfresh).
Qed.

Lemma operation_started_then_completed_witness :
  let '(res, logs1) :=
    start_log_operation "ABCD1234" "2024-01-01T00:00:00" "Fetch New" "" [] in
  res = Ok "ABCD1234"
  ∧ update_log_operation sort_newest_first "2024-01-01T00:05:00" "ABCD1234"
      "success" "done" logs1
    = [] ++ [ {| log_id := "ABCD1234"; operation := "Fetch New";
                 start_time := "2024-01-01T00:00:00";
                 end_time := Some "2024-01-01T00:05:00";
                 status := "success"; details := "done" |} ].
Proof.
  apply (operation_started_then_completed sort_newest_first "ABCD1234"
           "2024-01-01T00:00:00" "Fetch New" "" "2024-01-01T00:05:00"
           "success" "done" [] sort_newest_first_ok).
  - intros H. inversion H.
  - cbn. lia.
Defined.

(** ** Pages of the operation log *)

Lemma page_take_drop like order_by filters search_term (p : nat) page_size
    (logs : log_table) :
  (0 <= page_size)%Z →
  get_operation_logs like order_by filters search_term
    (Z.of_nat (S p)) page_size logs
  = take (Z.to_nat page_size)
      (drop (p * Z.to_nat page_size)
         (order_by (filter (λ r, log_matches like filters search_term r = true)
                      logs))).
Proof.
  intros Hsize. unfold get_operation_logs, limit_offset. cbn zeta.
  rewrite (proj2 (Z.ltb_ge _ _)) by exact Hsize.
  replace (Z.to_nat ((Z.of_nat (S p) - 1) * page_size))
    with (p * Z.to_nat page_size) by nia.
  reflexivity.
Qed.

(** X8.  With a page size that is not negative, the pages 1 to [n] of
    [get_operation_logs], one after the other, are the first [n] times the
    page size entries of the selection in its order, and no page is longer
    than the page size; with a negative page size the first page is the
    whole selection.  Every entry of a page is an entry of the log that
    passes the filter, and a page is ordered most recent first. *)
Theorem operation_log_pages like order_by filters search_term page_size
    (logs : log_table) :
  orders_newest_first order_by →
  let selected :=
    order_by (filter (λ r, log_matches like filters search_term r = true) logs) in
  let page p :=
    get_operation_logs like order_by filters search_term p page_size logs in
  ((0 <= page_size)%Z →
   ∀ n, concat ((λ p, page (Z.of_nat p)) <$> seq 1 n)
        = take (n * Z.to_nat page_size) selected
        ∧ length (page (Z.of_nat (S n))) ≤ Z.to_nat page_size)
  ∧ ((page_size < 0)%Z → page 1%Z = selected)
  ∧ ∀ p, Forall (λ r, r ∈ logs ∧ log_matches like filters search_term r = true)
           (page p)
         ∧ StronglySorted newer_eq (page p).
Proof.
  intros Hord. cbn zeta. split; [| split].
  - intros Hsize n. split.
    + induction n as [| n IH]; [reflexivity |].
      rewrite seq_S, fmap_app, concat_app, IH. cbn [fmap list_fmap concat].
      rewrite app_nil_r. replace (1 + n) with (S n) by lia.
      rewrite page_take_drop by exact Hsize.
      rewrite take_take_drop. f_equal. lia.
    + rewrite page_take_drop by exact Hsize. rewrite length_take. lia.
  - intros Hneg. unfold get_operation_logs, limit_offset. cbn zeta.
    rewrite (proj2 (Z.ltb_lt _ _)) by exact Hneg. reflexivity.
  - intros p. unfold get_operation_logs.
    set (selected := order_by _).
    destruct (Hord (filter (λ r, log_matches like filters search_term r = true)
                      logs)) as [Hperm Hsorted].
    fold selected in Hperm, Hsorted.
    assert (limit_offset page_size ((p - 1) * page_size) selected
              `sublist_of` selected) as Hsub.
    { unfold limit_offset. cbn zeta. destruct (page_size <? 0)%Z.
      - apply sublist_drop.
      - etrans; [apply sublist_take | apply sublist_drop]. }
    split.
    + apply Forall_forall. intros r Hr.
      eapply elem_of_sublist in Hr; [| exact Hsub].
      rewrite Hperm in Hr. apply list_elem_of_filter in Hr as [Hm Hin].
      split; assumption.
    + unfold limit_offset. cbn zeta.
      rewrite <- (take_drop (Z.to_nat ((p - 1) * page_size)) selected)
        in Hsorted.
      apply StronglySorted_app_1_r in Hsorted.
      destruct (page_size <? 0)%Z; [exact Hsorted |].
      rewrite <- (take_drop (Z.to_nat page_size)
                    (drop (Z.to_nat ((p - 1) * page_size)) selected))
        in Hsorted.
      apply StronglySorted_app_1_l in Hsorted. exact Hsorted.
Qed.

Lemma operation_log_pages_witness :
  let logs :=
    (λ n, {| log_id := pretty n; operation := "Fetch New";
             start_time := "2024-01-01T00:00:" +:+ pretty (10 + n);
             end_time := None; status := "running"; details := "" |})
      <$> seq 0 5 in
  concat ((λ p, get_operation_logs (λ _ _, true) sort_newest_first None None
                  (Z.of_nat p) 2 logs) <$> seq 1 2)
  = take (2 * Z.to_nat 2) (sort_newest_first logs).
Proof.
  cbn zeta.
  pose proof (operation_log_pages (λ _ _, true) sort_newest_first None None 2
                ((λ n, {| log_id := pretty n; operation := "Fetch New";
                          start_time := "2024-01-01T00:00:" +:+ pretty (10 + n);
                          end_time := None; status := "running";
                          details := "" |}) <$> seq 0 5)
                sort_newest_first_ok) as H.
  cbn zeta in H. destruct H as [Hpages _].
  destruct (Hpages ltac:(lia) 2) as [Heq _].
  rewrite Heq. vm_compute. reflexivity.
Defined.

(** ** The watermark *)

Lemma string_leb_refl (s : string) : String.leb s s = true.
Proof. destruct (String.leb_total s s); assumption. Qed.

Lemma later_eqb_refl (r : song_row) :
  stored_date (order_date r) → later_eqb r r = true.
Proof.
  unfold later_eqb. intros [-> | [s ->]];
    [reflexivity | apply string_leb_refl].
Qed.

Lemma later_eqb_total (a b : song_row) :
  stored_date (order_date a) → stored_date (order_date b) →
  later_eqb a b = true ∨ later_eqb b a = true.
Proof.
  unfold later_eqb. intros [-> | [s ->]] [-> | [t ->]]; auto.
  destruct (String.leb_total s t); auto.
Qed.

Lemma later_eqb_trans (a b c : song_row) :
  stored_date (order_date a) → stored_date (order_date b) →
  stored_date (order_date c) →
  later_eqb a b = true → later_eqb b c = true → later_eqb a c = true.
Proof.
  unfold later_eqb.
  intros [-> | [s ->]] [-> | [t ->]] [-> | [u ->]]; try reflexivity;
    try discriminate.
  intros H1 H2. eapply string_leb_trans; eassumption.
Qed.

Lemma insert_latest_first_perm (r : song_row) (l : song_table) :
  insert_latest_first r l ≡ₚ r :: l.
Proof.
  induction l as [| r' l IH]; [reflexivity |]. simpl.
  destruct (later_eqb r r'); [reflexivity |].
  rewrite IH. apply Permutation_swap.
Qed.

Lemma insert_latest_first_sorted (r : song_row) (l : song_table) :
  stored_date (order_date r) →
  Forall (λ r', stored_date (order_date r')) l →
  StronglySorted (λ a b, later_eqb a b = true) l →
  StronglySorted (λ a b, later_eqb a b = true) (insert_latest_first r l).
Proof.
  intros Hr Hl Hs. induction Hs as [| r' l Hs IH Hall]; simpl.
  - repeat constructor.
  - apply Forall_cons in Hl as [Hr' Hl].
    destruct (later_eqb r r') eqn:E.
    + constructor; [constructor; assumption |].
      constructor; [exact E |].
      apply Forall_forall. intros x Hx.
      eapply (later_eqb_trans r r' x); try assumption.
      * eapply Forall_forall in Hl; [exact Hl | exact Hx].
      * eapply Forall_forall in Hall; [exact Hall | exact Hx].
    + constructor; [apply IH, Hl |].
      rewrite insert_latest_first_perm. constructor; [| exact Hall].
      destruct (later_eqb_total r r' Hr Hr') as [H | H];
        [congruence | exact H].
Qed.

Lemma sort_latest_first_ok : orders_latest_first sort_latest_first.
Proof.
  intros tbl Hdates. unfold sort_latest_first.
  induction Hdates as [| r tbl Hr Hdates [IHp IHs]]; simpl.
  - split; [reflexivity | constructor].
  - split.
    + rewrite insert_latest_first_perm, IHp. reflexivity.
    + apply insert_latest_first_sorted; [exact Hr | | exact IHs].
      rewrite IHp. exact Hdates.
Qed.

(** A bound parameter stored in a TEXT column is NULL or TEXT. *)
Lemma bind_param_stored_date v x :
  bind_param v = Some x → stored_date (text_affinity x).
Proof.
  destruct v; intros [= <-]; cbn;
    first [left; reflexivity | right; eexists; reflexivity].
Qed.

Lemma insert_params_order_date song r :
  insert_params song = Some r →
  text_affinity <$> bind_param (dict_get song "order_date")
  = Some (order_date r).
Proof.
  unfold insert_params. intros H.
  destruct (song !! "song_id") as [id |]; [| discriminate]. cbn in H.
  destruct (bind_param (dict_get song "order_date")) as [od |] eqn:Eod.
  - repeat match type of H with
    | context [bind_param ?v] =>
        destruct (bind_param v); cbn in H; [| discriminate]
    end.
    injection H as <-. reflexivity.
  - exfalso.
    repeat match type of H with
    | context [bind_param ?v] =>
        destruct (bind_param v); cbn in H; [| discriminate]
    end.
    discriminate H.
Qed.

(** The dates of the rows [save_song] writes are NULL or TEXT. *)
Lemma save_song_stores_dates song tbl :
  Forall (λ r, stored_date (order_date r)) tbl →
  Forall (λ r, stored_date (order_date r)) (save_song song tbl).2.
Proof.
  intros Hdates. rewrite save_song_table.
  destruct (written song) as [r |] eqn:Hw; [| exact Hdates].
  unfold insert_or_replace. apply Forall_app. split.
  - apply Forall_forall. intros r' Hr'.
    apply list_elem_of_filter in Hr' as [_ Hr'].
    eapply Forall_forall in Hdates; [exact Hdates | exact Hr'].
  - constructor; [| constructor].
    unfold written, save_song in Hw.
    destruct (bool_decide (song = ∅) || negb (truthy (dict_get song "song_id")));
      [discriminate |].
    destruct (insert_params (fill_required song)) as [r0 |] eqn:Hp;
      [| discriminate].
    cbn in Hw. injection Hw as <-.
    apply insert_params_order_date in Hp.
    destruct (bind_param (dict_get (fill_required song) "order_date"))
      as [od |] eqn:Eod; [| discriminate].
    injection Hp as <-. exact (bind_param_stored_date _ _ Eod).
Qed.

(** X9.  On a table whose dates are NULL or TEXT, [get_last_song_id]
    returns nothing exactly when the table is empty, and otherwise the
    identifier of a row whose purchase date is at least as late as that of
    every row, a row without a date counting as the earliest. *)
Theorem last_song_id_is_latest order_by tbl :
  orders_latest_first order_by →
  Forall (λ r, stored_date (order_date r)) tbl →
  (get_last_song_id order_by tbl = None ↔ tbl = [])
  ∧ ∀ id, get_last_song_id order_by tbl = Some id →
      ∃ r, r ∈ tbl ∧ song_id r = id
           ∧ ∀ r', r' ∈ tbl → later_eqb r r' = true.
Proof.
  intros Hord Hdates. destruct (Hord tbl Hdates) as [Hperm Hsorted].
  unfold get_last_song_id. split.
  - destruct (order_by tbl) as [| r l] eqn:E; cbn.
    + split; [intros _ | reflexivity].
      apply Permutation_nil_l in Hperm. symmetry. exact Hperm.
    + split; [discriminate | intros ->].
      apply Permutation_nil_r in Hperm. discriminate.
  - intros id Hid.
    destruct (order_by tbl) as [| r l] eqn:E; [discriminate |].
    cbn in Hid. injection Hid as <-.
    exists r. split; [rewrite <- Hperm; left |]. split; [reflexivity |].
    intros r' Hr'. rewrite <- Hperm in Hr'.
    apply elem_of_cons in Hr' as [-> | Hr'].
    + apply later_eqb_refl.
      eapply Forall_forall in Hdates; [exact Hdates |].
      rewrite <- Hperm. left.
    + apply StronglySorted_inv in Hsorted as [_ Hall].
      eapply Forall_forall in Hall; [exact Hall | exact Hr'].
Qed.

Lemma last_song_id_is_latest_witness :
  ∃ r, r ∈ damaged_table ∧ song_id r = SqlText "KV101"
       ∧ ∀ r', r' ∈ damaged_table → later_eqb r r' = true.
Proof.
  assert (Forall (λ r, stored_date (order_date r)) damaged_table) as Hdates.
  { unfold damaged_table.
    repeat (constructor;
            [first [left; reflexivity | right; eexists; reflexivity] |]).
    constructor. }
  apply (proj2 (last_song_id_is_latest sort_latest_first damaged_table
                  sort_latest_first_ok Hdates)).
  vm_compute. reflexivity.
Defined.

End CatalogStoreMore.

(** * Properties of the page fetcher and the reconciler *)

Section Reconciliation.
Import Scraper.

Implicit Types (site : listing_site) (songs : list pydict).

(** C5.  When every attempt at a page fails, [scrape_songs_on_page] issues
    exactly three requests, sleeps 1 second after the first failure and 2
    seconds after the second, sleeps no more after the third, and returns
    the empty list with [has_next_page = False] instead of raising. *)
Theorem page_fetch_exhaustion site base_url page_number :
  (∀ attempt, attempt < 3 → site page_number attempt = AttemptRaises) →
  scrape_songs_on_page site base_url page_number 3 =
    (([], false),
     [ Get (page_url base_url page_number);
       LogAttemptFailed 1 page_number;
       Sleep 1;
       Get (page_url base_url page_number);
       LogAttemptFailed 2 page_number;
       Sleep 2;
       Get (page_url base_url page_number);
       LogAttemptFailed 3 page_number;
       LogAllAttemptsFailed page_number ]).
Proof.
  intros Hfail. unfold scrape_songs_on_page. cbn [scrape_attempts Nat.sub].
  rewrite (Hfail 0), (Hfail 1), (Hfail 2) by lia. reflexivity.
Qed.

Lemma page_fetch_exhaustion_witness :
  scrape_songs_on_page (λ _ _, AttemptRaises) "https://www.karaoke-version.com" 2 3 =
    (([], false),
     [ Get (page_url "https://www.karaoke-version.com" 2);
       LogAttemptFailed 1 2; Sleep 1;
       Get (page_url "https://www.karaoke-version.com" 2);
       LogAttemptFailed 2 2; Sleep 2;
       Get (page_url "https://www.karaoke-version.com" 2);
       LogAttemptFailed 3 2; LogAllAttemptsFailed 2 ]).
Proof.
  apply (page_fetch_exhaustion (λ _ _, AttemptRaises)). intros attempt _. reflexivity.
Defined.

(** ** Early stop at the watermark *)








End Reconciliation.

(** * Further properties of the page fetcher and the reconciler *)

Section ReconciliationMore.
Import Scraper.

Implicit Types (site : listing_site) (songs : list pydict).

(** ** Extraction *)

Lemma truthy_str_nonempty s : truthy (PyStr s) = true → s ≠ "".
Proof. intros H ->. discriminate H. Qed.

(** The lookups on a record of the seven keys of a track. *)
Lemma track_record_lookup (sid ar au ti tu od du : pyval) :
  let song : pydict :=
    {[ "song_id" := sid; "artist" := ar; "artist_url" := au; "title" := ti;
       "title_url" := tu; "order_date" := od; "download_url" := du ]} in
  (song !! "song_id" = Some sid ∧ song !! "artist" = Some ar
   ∧ song !! "artist_url" = Some au ∧ song !! "title" = Some ti
   ∧ song !! "title_url" = Some tu ∧ song !! "order_date" = Some od
   ∧ song !! "download_url" = Some du)
  ∧ (song !! "file_path" = None ∧ song !! "downloaded" = None
     ∧ song !! "extracted" = None)
  ∧ dom song = list_to_set ["song_id"; "artist"; "artist_url"; "title";
                            "title_url"; "order_date"; "download_url"].
Proof. cbv zeta. repeat split. Qed.

Lemma bind_param_py_opt o :
  Database.bind_param (py_opt o)
  = Some (default Database.SqlNull (Database.SqlText <$> o)).
Proof. destruct o; reflexivity. Qed.

Lemma text_affinity_opt (o : option string) :
  Database.text_affinity (default Database.SqlNull (Database.SqlText <$> o))
  = default Database.SqlNull (Database.SqlText <$> o).
Proof. destruct o; reflexivity. Qed.

(** [save_song] on a record of the seven keys whose identifier, artist and
    title are non-empty strings. *)
Lemma save_song_track_record sid ar au ti tu od du
    (tbl : Database.song_table) :
  sid ≠ "" → ar ≠ "" → ti ≠ "" →
  let song : pydict :=
    {[ "song_id" := PyStr sid; "artist" := PyStr ar;
       "artist_url" := py_opt au; "title" := PyStr ti;
       "title_url" := py_opt tu; "order_date" := py_opt od;
       "download_url" := py_opt du ]} in
  Database.save_song song tbl
  = (Ok tt, song,
     Database.insert_or_replace
       {| Database.song_id := Database.SqlText sid;
          Database.artist := Database.SqlText ar;
          Database.artist_url :=
            default Database.SqlNull (Database.SqlText <$> au);
          Database.title := Database.SqlText ti;
          Database.title_url :=
            default Database.SqlNull (Database.SqlText <$> tu);
          Database.order_date :=
            default Database.SqlNull (Database.SqlText <$> od);
          Database.download_url :=
            default Database.SqlNull (Database.SqlText <$> du);
          Database.file_path := Database.SqlJson (PyList []);
          Database.downloaded := Database.SqlInt 0;
          Database.extracted := Database.SqlInt 0 |} tbl).
Proof.
  intros Hid Har Hti song.
  destruct (track_record_lookup (PyStr sid) (PyStr ar) (py_opt au) (PyStr ti)
              (py_opt tu) (py_opt od) (py_opt du))
    as ((Lid & Lar & Lau & Lti & Ltu & Lod & Ldu) & (Lfp & Ldl & Lex) & _).
  fold song in Lid, Lar, Lau, Lti, Ltu, Lod, Ldu, Lfp, Ldl, Lex.
  clearbody song.
  assert (Database.fill_required song = song) as Hfill.
  { unfold Database.fill_required, Database.required_fields.
    cbn [foldl]. unfold dict_get. rewrite Lid. cbn [from_option id].
    rewrite (truthy_nonempty_str _ Hid), Lar. cbn [from_option id].
    rewrite (truthy_nonempty_str _ Har), Lti. cbn [from_option id].
    rewrite (truthy_nonempty_str _ Hti). reflexivity. }
  unfold Database.save_song.
  rewrite bool_decide_eq_false_2
    by (intros ->; rewrite lookup_empty in Lid; discriminate Lid).
  unfold dict_get at 1. rewrite Lid. cbn [from_option id].
  rewrite (truthy_nonempty_str _ Hid). cbn [negb orb]. cbv zeta.
  rewrite Hfill.
  unfold Database.insert_params, Database.file_paths_of, dict_get,
    dict_get_default.
  rewrite Lid, Lar, Lau, Lti, Ltu, Lod, Ldu, Lfp, Ldl, Lex.
  cbn [from_option id mbind option_bind Database.bind_param].
  rewrite !bind_param_py_opt. cbn [mbind option_bind].
  rewrite !text_affinity_opt. reflexivity.
Qed.

(** X10.  A record that [_extract_song_data] returns has exactly the seven
    keys of a track, an identifier made of KV and the non-empty
    [data-songid] of the row, and a non-empty title and artist; and
    [save_song] accepts it as it is, storing it under that identifier as
    not downloaded, not extracted and without file. *)
Theorem extracted_song_is_storable parse song_row song
    (tbl : Database.song_table) :
  _extract_song_data parse song_row = Ok song →
  ∃ val name artist_name r,
    song_id_td song_row = Some (Some val) ∧ val ≠ ""
    ∧ name ≠ "" ∧ artist_name ≠ ""
    ∧ song !! "song_id" = Some (PyStr ("KV" +:+ val))
    ∧ song !! "title" = Some (PyStr name)
    ∧ song !! "artist" = Some (PyStr artist_name)
    ∧ dom song = list_to_set ["song_id"; "artist"; "artist_url"; "title";
                             "title_url"; "order_date"; "download_url"]
    ∧ Database.save_song song tbl
      = (Ok tt, song, Database.insert_or_replace r tbl)
    ∧ Database.song_id r = Database.SqlText ("KV" +:+ val)
    ∧ Database.artist r = Database.SqlText artist_name
    ∧ Database.title r = Database.SqlText name
    ∧ Database.file_path r = Database.SqlJson (PyList [])
    ∧ Database.downloaded r = Database.SqlInt 0
    ∧ Database.extracted r = Database.SqlInt 0.
Proof.
  unfold _extract_song_data. intros H.
  destruct (song_td song_row) as [[[[name url] |] [[artist_name aa dt] |]] |];
    try discriminate H.
  destruct (download_link_anchor song_row) as [dl |]; [| discriminate H].
  destruct (song_id_td song_row) as [[val |] |]; try discriminate H.
  cbn [anchor_text anchor_href artist_text artist_anchor date_td
       song_anchor artist_td] in H.
  destruct (truthy (PyStr val)) eqn:Hval; [| discriminate H].
  destruct (truthy (PyStr name)) eqn:Hname; [| discriminate H].
  destruct (truthy (PyStr artist_name)) eqn:Hartist; [| discriminate H].
  cbn [truthy String.eqb String.append negb orb] in H.
  injection H as <-.
  apply truthy_str_nonempty in Hval, Hname, Hartist.
  set (artist_url := match aa with Some href => href | None => None end).
  set (date := match dt with Some text => parse text | None => None end).
  clearbody artist_url date.
  destruct (track_record_lookup (PyStr ("KV" +:+ val)) (PyStr artist_name)
              (py_opt artist_url) (PyStr name) (py_opt url) (py_opt date)
              (py_opt dl))
    as ((Lid & Lar & _ & Lti & _) & _ & Hdom).
  eexists val, name, artist_name, _.
  split; [reflexivity |]. do 3 (split; [assumption |]).
  split; [exact Lid |]. split; [exact Lti |]. split; [exact Lar |].
  split; [exact Hdom |].
  split; [apply save_song_track_record; [discriminate | assumption ..] |].
  repeat split.
Qed.

Lemma extracted_song_is_storable_witness :
  ∃ val name artist_name r,
    song_id_td complete_row = Some (Some val) ∧ val ≠ ""
    ∧ name ≠ "" ∧ artist_name ≠ ""
    ∧ track "KV101" "2024-02-01" !! "song_id" = Some (PyStr ("KV" +:+ val))
    ∧ track "KV101" "2024-02-01" !! "title" = Some (PyStr name)
    ∧ track "KV101" "2024-02-01" !! "artist" = Some (PyStr artist_name)
    ∧ dom (track "KV101" "2024-02-01")
      = list_to_set ["song_id"; "artist"; "artist_url"; "title";
                     "title_url"; "order_date"; "download_url"]
    ∧ Database.save_song (track "KV101" "2024-02-01") []
      = (Ok tt, track "KV101" "2024-02-01", Database.insert_or_replace r [])
    ∧ Database.song_id r = Database.SqlText ("KV" +:+ val)
    ∧ Database.artist r = Database.SqlText artist_name
    ∧ Database.title r = Database.SqlText name
    ∧ Database.file_path r = Database.SqlJson (PyList [])
    ∧ Database.downloaded r = Database.SqlInt 0
    ∧ Database.extracted r = Database.SqlInt 0.
Proof.
  apply (extracted_song_is_storable (λ _, Some "2024-02-01") complete_row).
  reflexivity.
Defined.

(** ** Retries of one page *)

Lemma scrape_attempts_success site base_url page_number max_retries
    remaining j rows has_next_page :
  remaining ≤ max_retries →
  max_retries - remaining ≤ j → j < max_retries →
  (∀ attempt, max_retries - remaining ≤ attempt → attempt < j →
              site page_number attempt = AttemptRaises) →
  site page_number j = AttemptPage rows has_next_page →
  scrape_attempts site base_url page_number max_retries remaining
  = (((rows_songs rows).1, has_next_page),
     flat_map (λ attempt,
                 [Get (page_url base_url page_number);
                  LogAttemptFailed (attempt + 1) page_number;
                  Sleep (2 ^ Z.of_nat attempt)])
              (seq (max_retries - remaining) (j - (max_retries - remaining)))
     ++ Get (page_url base_url page_number) :: (rows_songs rows).2).
Proof.
  revert j. induction remaining as [| remaining IH]; intros j Hle Hk Hj Hfail Hpage;
    [lia |].
  cbn [scrape_attempts].
  destruct (decide (max_retries - S remaining = j)) as [-> | Hne].
  - rewrite Hpage, Nat.sub_diag. destruct (rows_songs rows). reflexivity.
  - rewrite (Hfail (max_retries - S remaining)) by lia.
    destruct (Nat.eqb_spec (max_retries - S remaining) (max_retries - 1));
      [lia |].
    rewrite (IH j) by first [lia | assumption | intros; apply Hfail; lia].
    replace (j - (max_retries - S remaining))
      with (S (j - (max_retries - remaining))) by lia.
    replace (max_retries - remaining) with (S (max_retries - S remaining))
      by lia.
    reflexivity.
Qed.

Lemma scrape_attempts_exhausted site base_url page_number max_retries
    remaining :
  0 < remaining → remaining ≤ max_retries →
  (∀ attempt, attempt < max_retries →
              site page_number attempt = AttemptRaises) →
  scrape_attempts site base_url page_number max_retries remaining
  = (([], false),
     flat_map (λ attempt,
                 [Get (page_url base_url page_number);
                  LogAttemptFailed (attempt + 1) page_number;
                  Sleep (2 ^ Z.of_nat attempt)])
              (seq (max_retries - remaining) (remaining - 1))
     ++ [Get (page_url base_url page_number);
         LogAttemptFailed max_retries page_number;
         LogAllAttemptsFailed page_number]).
Proof.
  intros Hpos Hle Hfail.
  induction remaining as [| remaining IH]; [lia |].
  cbn [scrape_attempts]. rewrite Hfail by lia.
  destruct (Nat.eqb_spec (max_retries - S remaining) (max_retries - 1))
    as [Heq | Hne].
  - assert (remaining = 0) as -> by lia.
    replace (max_retries - 1 + 1) with max_retries by lia. reflexivity.
  - rewrite IH by lia.
    replace (S remaining - 1) with (S (remaining - 1)) by lia.
    replace (max_retries - remaining) with (S (max_retries - S remaining))
      by lia.
    reflexivity.
Qed.

(** X11.  For every retry bound, [scrape_songs_on_page] returns the first
    page it manages to read: when the attempts before the [j]-th fail and
    that one succeeds, it has made [j + 1] requests, slept 1, 2, ...,
    2^(j-1) seconds between them, and returns the songs of that page.  When
    every attempt fails it returns the empty list and no next page after as
    many requests as the bound, without sleeping after the last one; with a
    bound of 0 it makes no request. *)
Theorem page_fetch_retry_law site base_url page_number max_retries :
  let url := page_url base_url page_number in
  (∀ j rows has_next_page,
     j < max_retries →
     (∀ attempt, attempt < j → site page_number attempt = AttemptRaises) →
     site page_number j = AttemptPage rows has_next_page →
     scrape_songs_on_page site base_url page_number max_retries
     = (((rows_songs rows).1, has_next_page),
        failed_attempts base_url page_number j
        ++ Get url :: (rows_songs rows).2))
  ∧ ((∀ attempt, attempt < max_retries →
                 site page_number attempt = AttemptRaises) →
     scrape_songs_on_page site base_url page_number max_retries
     = (([], false),
        match max_retries with
        | 0 => []
        | S m =>
            failed_attempts base_url page_number m
            ++ [Get url; LogAttemptFailed max_retries page_number;
                LogAllAttemptsFailed page_number]
        end)).
Proof.
  intros url. unfold scrape_songs_on_page, failed_attempts. split.
  - intros j rows has_next_page Hj Hfail Hpage.
    rewrite (scrape_attempts_success _ _ _ _ _ j rows has_next_page)
      by first [lia | assumption | intros; apply Hfail; lia].
    rewrite Nat.sub_diag, Nat.sub_0_r. reflexivity.
  - intros Hfail. destruct max_retries as [| m]; [reflexivity |].
    rewrite scrape_attempts_exhausted by first [lia | assumption].
    rewrite Nat.sub_diag. replace (S m - 1) with m by lia. reflexivity.
Qed.

Lemma page_fetch_retry_law_witness :
  scrape_songs_on_page flaky_site "https://www.karaoke-version.com" 1 3
  = (([track "KV101" "2024-02-01"], false),
     [ Get (page_url "https://www.karaoke-version.com" 1);
       LogAttemptFailed 1 1; Sleep 1;
       Get (page_url "https://www.karaoke-version.com" 1);
       LogAttemptFailed 2 1; Sleep 2;
       Get (page_url "https://www.karaoke-version.com" 1);
       LogRowSkipped ]).
Proof.
  apply (proj1 (page_fetch_retry_law flaky_site
                  "https://www.karaoke-version.com" 1 3) 2
           [Ok (track "KV101" "2024-02-01"); Raise ValueError] false).
  - lia.
  - intros [| [| attempt]] Hlt; [reflexivity | reflexivity | lia].
  - reflexivity.
Defined.

(** ** Reconciliation in any completion order *)

Lemma merge_page_all last_song_id validate songs all_songs :
  watermark_given last_song_id = false
  ∨ (validate = true ∧ Forall (λ song, is_Some (song !! "song_id")) songs) →
  merge_page last_song_id validate songs all_songs
  = (Ok false, all_songs ++ songs).
Proof.
  revert all_songs. induction songs as [| song songs IH];
    intros all_songs Hcase.
  - simpl. rewrite app_nil_r. reflexivity.
  - cbn [merge_page]. destruct Hcase as [Hno | [-> Hids]].
    + rewrite Hno, IH by (left; exact Hno).
      rewrite <- app_assoc. reflexivity.
    + apply Forall_cons in Hids as [[id Hid] Hids].
      rewrite Hid, andb_false_r, IH by (right; split; [reflexivity | exact Hids]).
      rewrite <- app_assoc. destruct (watermark_given last_song_id); reflexivity.
Qed.

Lemma collect_pages_all site base_url last_song_id validate completion
    all_songs failed :
  watermark_given last_song_id = false
  ∨ (validate = true
     ∧ Forall (λ song, is_Some (song !! "song_id"))
         (pages_songs site base_url completion)) →
  collect_pages site base_url last_song_id validate completion all_songs failed
  = (all_songs ++ pages_songs site base_url completion, failed).
Proof.
  revert all_songs. induction completion as [| p completion IH];
    intros all_songs Hcase.
  - simpl. rewrite app_nil_r. reflexivity.
  - cbn [collect_pages pages_songs fmap list_fmap concat] in *.
    rewrite merge_page_all, IH.
    + rewrite <- app_assoc. reflexivity.
    + destruct Hcase as [Hno | [-> Hids]]; [left; exact Hno | right].
      apply Forall_app in Hids as [_ Hids]. split; [reflexivity | exact Hids].
    + destruct Hcase as [Hno | [-> Hids]]; [left; exact Hno | right].
      apply Forall_app in Hids as [Hids _]. split; [reflexivity | exact Hids].
Qed.

Lemma pages_songs_Permutation site base_url (pages1 pages2 : list nat) :
  pages1 ≡ₚ pages2 →
  pages_songs site base_url pages1 ≡ₚ pages_songs site base_url pages2.
Proof.
  unfold pages_songs. induction 1 as [| p l1 l2 _ IH | p q l | l1 l2 l3 _ IH1 _ IH2].
  - reflexivity.
  - cbn [fmap list_fmap concat]. rewrite IH. reflexivity.
  - cbn [fmap list_fmap concat]. rewrite !app_assoc.
    apply Permutation_app_tail, Permutation_app_comm.
  - etransitivity; eassumption.
Qed.

(** X12.  Without a watermark (none, or an empty one), and also on a forced
    rescan of records that all carry an identifier, [scrape_all_pages]
    returns the songs of every page in the order in which the pages
    complete and fails no page; so when every page completes, whatever the
    order, the result is the listing of the site up to the order of the
    tracks. *)
Theorem full_rescan_returns_the_listing site base_url total_pages completion
    last_song_id validate :
  watermark_given last_song_id = false
  ∨ (validate = true
     ∧ Forall (λ song, is_Some (song !! "song_id"))
         (pages_songs site base_url completion)) →
  scrape_all_pages site base_url total_pages completion last_song_id validate
  = (pages_songs site base_url completion, [])
  ∧ (completion ≡ₚ seq 1 total_pages →
     (scrape_all_pages site base_url total_pages completion last_song_id
        validate).1
     ≡ₚ listing site base_url total_pages).
Proof.
  intros Hcase. unfold scrape_all_pages.
  rewrite (collect_pages_all _ _ _ _ _ _ _ Hcase). split; [reflexivity |].
  intros Hperm. cbn [fst].
  apply (pages_songs_Permutation site base_url _ _ Hperm).
Qed.

Lemma full_rescan_returns_the_listing_witness :
  scrape_all_pages two_page_site "https://www.karaoke-version.com" 2 [2; 1]
    (Some "KV100") true
  = (pages_songs two_page_site "https://www.karaoke-version.com" [2; 1], [])
  ∧ ([2; 1] ≡ₚ seq 1 2 →
     (scrape_all_pages two_page_site "https://www.karaoke-version.com" 2
        [2; 1] (Some "KV100") true).1
     ≡ₚ listing two_page_site "https://www.karaoke-version.com" 2).
Proof.
  apply (full_rescan_returns_the_listing two_page_site
           "https://www.karaoke-version.com" 2 [2; 1] (Some "KV100") true).
  right. split; [reflexivity |].
  apply (bool_decide_unpack _). vm_compute. reflexivity.
Defined.

Lemma merge_page_watermark watermark songs all_songs :
  watermark ≠ "" →
  ∃ l, l `prefix_of` songs
       ∧ (merge_page (Some watermark) false songs all_songs).2 = all_songs ++ l
       ∧ Forall (λ song, song !! "song_id" ≠ Some (PyStr watermark)) l
       ∧ (∀ e, (merge_page (Some watermark) false songs all_songs).1 = Raise e →
               ∃ song, song ∈ songs ∧ song !! "song_id" = None).
Proof.
  intros Hwm. revert all_songs.
  induction songs as [| song songs IH]; intros all_songs.
  - exists []. cbn. rewrite app_nil_r.
    split; [apply prefix_nil |]. split; [reflexivity |].
    split; [constructor | discriminate].
  - cbn [merge_page watermark_given].
    rewrite (truthy_nonempty_str _ Hwm).
    destruct (song !! "song_id") as [id |] eqn:Hid.
    + rewrite andb_true_r. cbn [fmap option_fmap option_map].
      destruct (decide (Some id = Some (PyStr watermark))) as [Heq | Hne].
      * rewrite bool_decide_eq_true_2 by exact Heq.
        exists []. cbn. rewrite app_nil_r.
        split; [apply prefix_nil |]. split; [reflexivity |].
        split; [constructor | discriminate].
      * rewrite bool_decide_eq_false_2 by exact Hne.
        destruct (IH (all_songs ++ [song])) as (l & Hpre & Heq & Hall & Hraise).
        exists (song :: l). split; [apply prefix_cons; exact Hpre |].
        split; [rewrite Heq, <- app_assoc; reflexivity |].
        split; [constructor; [rewrite Hid; exact Hne | exact Hall] |].
        intros e He. destruct (Hraise e He) as (song' & Hin & Hnone).
        exists song'. split; [right; exact Hin | exact Hnone].
    + exists []. cbn. rewrite app_nil_r.
      split; [apply prefix_nil |]. split; [reflexivity |].
      split; [constructor |].
      intros e _. exists song. split; [left | exact Hid].
Qed.

Lemma collect_pages_watermark site base_url watermark completion all_songs
    failed :
  watermark ≠ "" →
  ∃ l f,
    collect_pages site base_url (Some watermark) false completion all_songs
      failed = (all_songs ++ l, failed ++ f)
    ∧ l `sublist_of` pages_songs site base_url completion
    ∧ Forall (λ song, song !! "song_id" ≠ Some (PyStr watermark)) l
    ∧ f `sublist_of` completion
    ∧ Forall (λ p, ∃ song, song ∈ pages_songs site base_url [p]
                           ∧ song !! "song_id" = None) f.
Proof.
  intros Hwm. revert all_songs failed.
  induction completion as [| p completion IH]; intros all_songs failed.
  - exists [], []. cbn. rewrite !app_nil_r.
    split; [reflexivity |]. repeat (split; [constructor |]). constructor.
  - cbn [collect_pages].
    destruct (merge_page_watermark watermark
                (scrape_songs_on_page site base_url p 3).1.1 all_songs Hwm)
      as (l & Hpre & Heq & Hall & Hraise).
    assert (l `sublist_of` (scrape_songs_on_page site base_url p 3).1.1)
      as Hsub by (destruct Hpre as [k ->]; apply sublist_inserts_r; reflexivity).
    destruct (merge_page (Some watermark) false
                (scrape_songs_on_page site base_url p 3).1.1 all_songs)
      as [[[] | e] all_songs'] eqn:Hm; cbn [snd fst] in Heq, Hraise;
      subst all_songs'.
    + exists l, []. rewrite app_nil_r.
      split; [reflexivity |]. split.
      { cbn [pages_songs fmap list_fmap concat].
        apply sublist_inserts_r. exact Hsub. }
      split; [exact Hall |]. split; [apply sublist_nil_l | constructor].
    + destruct (IH (all_songs ++ l) failed) as (l' & f & -> & Hl' & Hall' & Hf & Hff).
      exists (l ++ l'), f. rewrite app_assoc.
      split; [reflexivity |]. split.
      { cbn [pages_songs fmap list_fmap concat].
        apply sublist_app; assumption. }
      split; [apply Forall_app; split; assumption |].
      split; [apply sublist_cons; exact Hf | exact Hff].
    + destruct (IH (all_songs ++ l) (failed ++ [p]))
        as (l' & f & -> & Hl' & Hall' & Hf & Hff).
      exists (l ++ l'), (p :: f). rewrite !app_assoc, <- (app_assoc failed).
      split; [reflexivity |]. split.
      { cbn [pages_songs fmap list_fmap concat].
        apply sublist_app; assumption. }
      split; [apply Forall_app; split; assumption |].
      split; [apply sublist_skip; exact Hf |].
      constructor; [| exact Hff].
      destruct (Hraise e eq_refl) as (song & Hin & Hnone).
      exists song. split; [| exact Hnone].
      cbn [pages_songs fmap list_fmap concat]. rewrite app_nil_r. exact Hin.
Qed.

(** X13.  In whatever order the pages complete, a reconciliation with a
    non-empty watermark and no forced rescan never returns a record that
    carries the watermark identifier; what it returns is taken, in order,
    from the songs of the completed pages, and a page is reported failed
    only if it lists a record without identifier. *)
Theorem watermark_track_never_returned site base_url total_pages completion
    watermark :
  watermark ≠ "" →
  let '(returned, failed) :=
    scrape_all_pages site base_url total_pages completion (Some watermark)
      false in
  Forall (λ song, song !! "song_id" ≠ Some (PyStr watermark)) returned
  ∧ returned `sublist_of` pages_songs site base_url completion
  ∧ failed `sublist_of` completion
  ∧ Forall (λ p, ∃ song, song ∈ pages_songs site base_url [p]
                         ∧ song !! "song_id" = None) failed.
Proof.
  intros Hwm. unfold scrape_all_pages.
  destruct (collect_pages_watermark site base_url watermark completion [] []
              Hwm) as (l & f & -> & Hl & Hall & Hf & Hff).
  cbn [app]. repeat split; assumption.
Qed.

Lemma watermark_track_never_returned_witness :
  let '(returned, failed) :=
    scrape_all_pages three_page_site "https://www.karaoke-version.com" 3
      [3; 2; 1] (Some "KV101") false in
  Forall (λ song, song !! "song_id" ≠ Some (PyStr "KV101")) returned
  ∧ returned `sublist_of`
      pages_songs three_page_site "https://www.karaoke-version.com" [3; 2; 1]
  ∧ failed `sublist_of` [3; 2; 1]
  ∧ Forall (λ p, ∃ song,
               song ∈ pages_songs three_page_site
                        "https://www.karaoke-version.com" [p]
               ∧ song !! "song_id" = None) failed.
Proof.
  apply (watermark_track_never_returned three_page_site
           "https://www.karaoke-version.com" 3 [3; 2; 1] "KV101").
  discriminate.
Defined.

End ReconciliationMore.

(** * Properties of the archive fetcher and the orchestrator *)

Section Acquisition.
Import Downloader Threads.

Implicit Types (E : environment) (w : world).

Lemma run_bind {A B} (m : M A) (f : A → M B) w :
  (m ≫= f) w =
    match m w with
    | (Ok a, w', tr) => let '(r, w'', tr') := f a w' in (r, w'', tr ++ tr')
    | (Raise e, w', tr) => (Raise e, w', tr)
    end.
Proof. reflexivity. Qed.

(** ** Files that are already there *)

Lemma download_song_already E unzip_songs delete_zip w id artist title name content :
  song w !! "song_id" = Some (PyStr id) →
  song w !! "artist" = Some artist →
  song w !! "title" = Some title →
  sanitize_filename (list_repr E) artist title (PyStr id) = Ok name →
  files w !! name = Some content →
  zip_ok E content = true →
  download_song E unzip_songs delete_zip w =
    (Ok tt,
     with_song (λ s, <["downloaded" := PyInt 1]>
                       (<["file_path" := PyList [name]]> s)) w,
     [Log ZipVerified; Log AlreadyValid; Emit (download_finished id)]).
Proof.
  intros Hid Hartist Htitle Hname Hfile Hzip.
  unfold download_song. rewrite !run_bind.
  unfold song_item at 1. rewrite Hid.
  rewrite !run_bind. unfold song_item at 1. rewrite Hartist.
  rewrite !run_bind. unfold song_item at 1. rewrite Htitle.
  rewrite !run_bind. rewrite Hname. unfold of_result, ret at 1.
  rewrite !run_bind. unfold path_exists at 1. rewrite Hfile.
  rewrite bool_decide_eq_true_2 by eauto.
  unfold verify_zip_file. rewrite !run_bind.
  unfold read_file at 1. rewrite Hfile, Hzip.
  rewrite !run_bind. cbn.
  destruct w; reflexivity.
Qed.

(** C3.  When the archive of a track is in the download directory under
    its expected name and tests as a zip archive, [download_song] returns
    without a request to the session, leaves every file as it is, records
    that one name on the track, marks the track downloaded and emits
    [download_finished]. *)
Theorem idempotent_refetch E unzip_songs delete_zip w id artist title name content :
  song w !! "song_id" = Some (PyStr id) →
  song w !! "artist" = Some artist →
  song w !! "title" = Some title →
  sanitize_filename (list_repr E) artist title (PyStr id) = Ok name →
  files w !! name = Some content →
  zip_ok E content = true →
  let '(r, w', tr) := download_song E unzip_songs delete_zip w in
  r = Ok tt
  ∧ requests w' = requests w
  ∧ (∀ url, Get url ∉ tr)
  ∧ files w' = files w
  ∧ song w' !! "file_path" = Some (PyList [name])
  ∧ song w' !! "downloaded" = Some (PyInt 1)
  ∧ Emit (download_finished id) ∈ tr.
Proof.
  intros Hid Hartist Htitle Hname Hfile Hzip.
  rewrite (download_song_already E unzip_songs delete_zip w id artist title
             name content Hid Hartist Htitle Hname Hfile Hzip).
  repeat split.
  - intros url Hin. repeat (apply elem_of_cons in Hin as [Hin | Hin];
                             [discriminate |]).
    inversion Hin.
  - cbn. rewrite lookup_insert_ne by discriminate. apply lookup_insert_eq.
  - cbn. apply lookup_insert_eq.
  - do 2 right. left.
Qed.

Lemma idempotent_refetch_witness :
  let '(r, w', tr) := download_song offline false false cached_world in
  r = Ok tt
  ∧ requests w' = requests cached_world
  ∧ (∀ url, Get url ∉ tr)
  ∧ files w' = files cached_world
  ∧ song w' !! "file_path" = Some (PyList ["Queen - Song - KV100.zip"])
  ∧ song w' !! "downloaded" = Some (PyInt 1)
  ∧ Emit (download_finished "KV100") ∈ tr.
Proof.
  apply (idempotent_refetch offline false false cached_world "KV100"
           (PyStr "Queen") (PyStr "Song") "Queen - Song - KV100.zip"
           [Byte.x50; Byte.x4b]); vm_compute; reflexivity.
Defined.

(** ** The trace of the retry loop *)

Lemma silent_ret {A} (a : A) : silent (mret a).
Proof. intros w. reflexivity. Qed.

Lemma silent_raise {A} e : silent (@raise A e).
Proof. intros w. reflexivity. Qed.

Lemma silent_bind {A B} (m : M A) (f : A → M B) :
  silent m → (∀ a, silent (f a)) → silent (m ≫= f).
Proof.
  intros Hm Hf w. rewrite run_bind. specialize (Hm w).
  destruct (m w) as [[[a | e] w'] tr]; [| exact Hm].
  specialize (Hf a w'). destruct (f a w') as [[r w''] tr']. cbn in *.
  rewrite omap_app, Hm, Hf. reflexivity.
Qed.

Lemma silent_try_except {A} (m : M A) handler :
  silent m → (∀ e, silent (handler e)) → silent (try_except m handler).
Proof.
  intros Hm Hh w. unfold try_except. specialize (Hm w).
  destruct (m w) as [[[a | e] w'] tr]; [exact Hm |].
  specialize (Hh e w'). destruct (handler e w') as [[r w''] tr']. cbn in *.
  rewrite omap_app, Hm, Hh. reflexivity.
Qed.

Lemma silent_tell e : retry_view e = None → silent (tell e).
Proof. intros He w. cbn. rewrite He. reflexivity. Qed.

Lemma silent_emit_id sig id : silent (emit_id sig id).
Proof.
  destruct id; try apply silent_raise. apply silent_tell. reflexivity.
Qed.

Lemma silent_of_result {A} (r : result A) : silent (of_result r).
Proof. destruct r; [apply silent_ret | apply silent_raise]. Qed.

Lemma silent_song_item k : silent (song_item k).
Proof. intros w. unfold song_item. destruct (song w !! k); reflexivity. Qed.

Lemma silent_song_set k v : silent (song_set k v).
Proof. intros w. reflexivity. Qed.

Lemma silent_path_exists name : silent (path_exists name).
Proof. intros w. reflexivity. Qed.

Lemma silent_read_file name : silent (read_file name).
Proof. intros w. reflexivity. Qed.

Lemma silent_write_file name content : silent (write_file name content).
Proof. intros w. reflexivity. Qed.

Lemma silent_unlink name : silent (unlink name).
Proof. intros w. unfold unlink. destruct (files w !! name); reflexivity. Qed.

Lemma silent_rename name target : silent (rename name target).
Proof. intros w. unfold rename. destruct (files w !! name); reflexivity. Qed.

Lemma silent_session_get E url : silent (session_get E url).
Proof.
  intros w. unfold session_get. destruct (session E (requests w)); reflexivity.
Qed.

Lemma silent_extract_archive E name id delete_zip :
  silent (extract_archive E name id delete_zip).
Proof.
  intros w. unfold extract_archive.
  destruct (handle_zip_extraction E (files w) name id delete_zip). reflexivity.
Qed.

Create HintDb silent.

#[local] Hint Resolve silent_ret silent_raise silent_emit_id silent_of_result
  silent_song_item silent_song_set silent_path_exists silent_read_file
  silent_write_file silent_unlink silent_rename silent_session_get
  silent_extract_archive : silent.

(** Decomposition of a goal [silent m] along the structure of [m]. *)
Ltac silent_step :=
  match goal with
  | |- silent (_ ≫= _) => apply silent_bind; [| intros ?]
  | |- silent (try_except _ _) => apply silent_try_except; [| intros ?]
  | |- silent (log _) => apply silent_tell; reflexivity
  | |- silent (sleep ResolveDelay _) => apply silent_tell; reflexivity
  | |- silent (tell _) => apply silent_tell; reflexivity
  | |- silent (match ?x with _ => _ end) => destruct x
  | |- silent _ => solve [auto with silent]
  end.

Lemma silent_resolve_attempts E url max remaining :
  silent (resolve_attempts E url max remaining).
Proof.
  induction remaining as [| remaining IH]; cbn [resolve_attempts];
    repeat silent_step.
Qed.

Lemma silent_verify_zip_file E name : silent (verify_zip_file E name).
Proof. unfold verify_zip_file. repeat silent_step. Qed.

Lemma silent_write_chunks id temp total chunks written n :
  silent (write_chunks id temp total chunks written n).
Proof.
  revert written n.
  induction chunks as [| chunk chunks IH]; intros written n;
    cbn [write_chunks]; repeat silent_step.
Qed.

#[local] Hint Resolve silent_resolve_attempts silent_verify_zip_file
  silent_write_chunks : silent.

Lemma silent_attempt_body E id name unzip_songs delete_zip :
  silent (attempt_body E id name unzip_songs delete_zip).
Proof.
  unfold attempt_body, get_direct_download_url. repeat silent_step.
Qed.

(** The [except] clauses never raise, and log the failure of the attempt
    once. *)
Lemma attempt_handler_view E name attempt e w :
  ∃ w' tr, attempt_handler name attempt e w = (Ok tt, w', tr)
           ∧ omap retry_view tr = [Failed attempt].
Proof.
  unfold attempt_handler. destruct (is_request_exception e).
  - eexists _, _. split; reflexivity.
  - rewrite !run_bind. cbn [log tell].
    rewrite !run_bind. unfold path_exists at 1.
    destruct (files w !! name) as [c |] eqn:Hfinal.
    + rewrite bool_decide_eq_true_2 by eauto.
      rewrite !run_bind. unfold unlink at 1. rewrite Hfinal.
      rewrite !run_bind. unfold path_exists at 1.
      destruct (files (with_files (delete name) w) !! with_suffix name ".tmp")
        as [c' |] eqn:Htemp.
      * rewrite bool_decide_eq_true_2 by eauto.
        unfold unlink. rewrite Htemp. eexists _, _. split; reflexivity.
      * rewrite bool_decide_eq_false_2 by (intros [? ?]; discriminate).
        eexists _, _. split; reflexivity.
    + rewrite bool_decide_eq_false_2 by (intros [? ?]; discriminate).
      rewrite !run_bind. cbn [mret M_ret ret].
      rewrite !run_bind. unfold path_exists at 1.
      destruct (files w !! with_suffix name ".tmp") as [c' |] eqn:Htemp.
      * rewrite bool_decide_eq_true_2 by eauto.
        unfold unlink. rewrite Htemp. eexists _, _. split; reflexivity.
      * rewrite bool_decide_eq_false_2 by (intros [? ?]; discriminate).
        eexists _, _. split; reflexivity.
Qed.

(** One iteration either returns, and is silent, or fails, and shows its
    failure once. *)
Lemma attempt_once_view E id name unzip_songs delete_zip attempt w :
  ∃ returned w' tr,
    attempt_once E id name unzip_songs delete_zip attempt w
      = (Ok returned, w', tr)
    ∧ omap retry_view tr = if returned then [] else [Failed attempt].
Proof.
  unfold attempt_once, try_except. rewrite run_bind.
  pose proof (silent_attempt_body E id name unzip_songs delete_zip w) as Hbody.
  destruct (attempt_body E id name unzip_songs delete_zip w)
    as [[[[] | e] w1] tr1]; cbn in Hbody.
  - exists true, w1, (tr1 ++ []). split; [reflexivity |].
    rewrite app_nil_r. exact Hbody.
  - rewrite run_bind.
    destruct (attempt_handler_view E name attempt e w1) as (w2 & tr2 & -> & Hh).
    exists false, w2, (tr1 ++ tr2 ++ []). split; [reflexivity |].
    rewrite !omap_app, Hbody, Hh. reflexivity.
Qed.

Lemma retry_schedule_S E n :
  retry_schedule E (S n) =
    retry_schedule E n ++
      Failed (S n) :: if S n <? max_retries then [Slept (sleep_time E (S n))] else [].
Proof.
  unfold retry_schedule. rewrite seq_S, flat_map_app. cbn [flat_map].
  rewrite app_nil_r. reflexivity.
Qed.

(** The loop started before attempt [done + 1] continues the schedule of
    the attempts that failed before it. *)
Lemma attempts_view E id name unzip_songs delete_zip remaining done w :
  done + remaining = max_retries →
  ∃ r w' tr n,
    attempts E id name unzip_songs delete_zip remaining w = (Ok r, w', tr)
    ∧ done ≤ n ≤ max_retries
    ∧ retry_schedule E done ++ omap retry_view tr = retry_schedule E n.
Proof.
  revert done w. induction remaining as [| remaining IH]; intros done w Hsum.
  - exists false, w, [], done. split; [reflexivity |].
    split; [lia | apply app_nil_r].
  - cbn [attempts]. rewrite run_bind.
    replace (max_retries + 1 - S remaining) with (S done) by lia.
    destruct (attempt_once_view E id name unzip_songs delete_zip (S done) w)
      as (returned & w1 & tr1 & -> & Hv1).
    destruct returned.
    + exists true, w1, (tr1 ++ []), done. split; [reflexivity |].
      split; [lia |]. rewrite app_nil_r, Hv1. apply app_nil_r.
    + rewrite run_bind.
      destruct (IH (S done) w1 ltac:(lia))
        as (r & w2 & tr2 & n & Hrun & Hn & Hv2).
      rewrite retry_schedule_S in Hv2.
      destruct (S done <? max_retries) eqn:Hlt.
      * rewrite !run_bind. unfold log, sleep, tell. rewrite Hrun.
        eexists r, w2, _, n. split; [reflexivity |]. split; [lia |].
        rewrite !omap_app, Hv1. cbn. rewrite <- Hv2, <- !app_assoc.
        reflexivity.
      * cbn [mret M_ret ret]. rewrite Hrun.
        eexists r, w2, _, n. split; [reflexivity |]. split; [lia |].
        rewrite !omap_app, Hv1. cbn. rewrite <- Hv2, <- !app_assoc.
        reflexivity.
Qed.

Lemma after_silent {A B} (P : list retry_event → Prop)
    (m : M A) (f : A → M B) w :
  silent m → P [] →
  (∀ a w', P (omap retry_view (f a w').2)) →
  P (omap retry_view ((m ≫= f) w).2).
Proof.
  intros Hm Hnil Hf. rewrite run_bind. specialize (Hm w).
  destruct (m w) as [[[a | e] w'] tr]; cbn in Hm.
  - specialize (Hf a w'). destruct (f a w') as [[r w''] tr']. cbn in *.
    rewrite omap_app, Hm. exact Hf.
  - cbn. rewrite Hm. exact Hnil.
Qed.

(** Whatever the session answers, the trace of [download_song] shows the
    schedule of the attempts that failed. *)
Lemma download_song_view E unzip_songs delete_zip w :
  ∃ n, n ≤ max_retries
       ∧ omap retry_view (download_song E unzip_songs delete_zip w).2
         = retry_schedule E n.
Proof.
  assert (∃ n, n ≤ max_retries ∧ [] = retry_schedule E n) as Hnil
    by (exists 0; split; [lia | reflexivity]).
  unfold download_song.
  apply after_silent; [auto with silent | exact Hnil | intros song_id w1].
  apply after_silent; [auto with silent | exact Hnil | intros artist w2].
  apply after_silent; [auto with silent | exact Hnil | intros title w3].
  apply after_silent; [auto with silent | exact Hnil | intros name w4].
  apply after_silent; [repeat silent_step | exact Hnil | intros already w5].
  destruct already.
  { replace (omap retry_view _) with (@nil retry_event); [exact Hnil |].
    symmetry.
    assert (silent (log AlreadyValid;;
                    song_set "file_path" (PyList [name]);;
                    song_set "downloaded" (PyInt 1);;
                    emit_id download_finished song_id)) as Hs
      by repeat silent_step.
    apply Hs. }
  apply after_silent; [auto with silent | exact Hnil | intros file_exists w6].
  apply after_silent; [repeat silent_step | exact Hnil | intros [] w7].
  rewrite run_bind.
  destruct (attempts_view E song_id name unzip_songs delete_zip
              max_retries 0 w7 eq_refl) as (r & w8 & tr & n & -> & Hn & Hv).
  exists n. split; [lia |]. cbn [app retry_schedule seq flat_map] in Hv.
  destruct r.
  - cbn. rewrite app_nil_r. exact Hv.
  - assert (silent (log (AllAttemptsFailed max_retries);;
                    song_set "downloaded" (PyInt 0);;
                    emit_id (λ id, download_failed id
                       ("Download failed after " +:+ pretty max_retries
                          +:+ " attempts")) song_id)) as Hs
      by repeat silent_step.
    specialize (Hs w8).
    destruct ((log (AllAttemptsFailed max_retries);;
               song_set "downloaded" (PyInt 0);;
               emit_id (λ id, download_failed id
                  ("Download failed after " +:+ pretty max_retries
                     +:+ " attempts")) song_id) w8) as [[r' w9] tr'].
    cbn in Hs |- *. rewrite omap_app, Hs, app_nil_r. exact Hv.
Qed.

Lemma sleep_time_capped E attempt : (sleep_time E attempt <= 30)%Q.
Proof. unfold sleep_time. apply Q.le_min_r. Qed.

(** C8.  The trace of [download_song] shows, for the [n <= 5] attempts
    that failed, each failure followed by one delay, except the fifth,
    after which nothing is slept; the delay slept after the failure of
    attempt [k < 5] is [min(2^(k-1) + r, 30)] for the draw [r] of
    [random.uniform(0, 1)], which lies in [[0,1)], and is at most 30
    seconds. *)
Theorem backoff_schedule E unzip_songs delete_zip w :
  (∀ k, (0 <= uniform01 E k)%Q ∧ (uniform01 E k < 1)%Q) →
  let tr := (download_song E unzip_songs delete_zip w).2 in
  ∃ n, n ≤ 5
    ∧ omap retry_view tr
      = flat_map (λ k, Failed k :: if k <? 5 then [Slept (sleep_time E k)] else [])
                 (seq 1 n)
    ∧ ∀ k, 1 ≤ k < 5 →
        ∃ r, (0 <= r)%Q ∧ (r < 1)%Q
             ∧ sleep_time E k = Qmin (inject_Z (2 ^ (Z.of_nat k - 1)) + r) 30
             ∧ (sleep_time E k <= 30)%Q.
Proof.
  intros Hdraw. cbn zeta.
  destruct (download_song_view E unzip_songs delete_zip w) as (n & Hn & Hv).
  exists n. split; [exact Hn |]. split; [exact Hv |].
  intros k _. exists (uniform01 E k).
  destruct (Hdraw k) as [H0 H1].
  split; [exact H0 |]. split; [exact H1 |].
  split; [reflexivity | apply sleep_time_capped].
Qed.

Lemma backoff_schedule_witness :
  omap retry_view (download_song offline false false pending_world).2
  = [ Failed 1; Slept (sleep_time offline 1);
      Failed 2; Slept (sleep_time offline 2);
      Failed 3; Slept (sleep_time offline 3);
      Failed 4; Slept (sleep_time offline 4);
      Failed 5 ].
Proof.
  destruct (backoff_schedule offline false false pending_world)
    as (n & Hn & Hv & _).
  - intros k. split; vm_compute; [discriminate | reflexivity].
  - assert (length (omap retry_view
              (download_song offline false false pending_world).2) = 9) as Hlen
      by (vm_compute; reflexivity).
    rewrite Hv in Hlen |- *.
    do 6 (destruct n as [| n]; [discriminate Hlen || reflexivity |]).
    lia.
Defined.

(** ** Partial files *)

(** The clause for [RequestException] changes no file. *)
Lemma request_exception_no_cleanup name attempt w :
  attempt_handler name attempt RequestException w
  = (Ok tt, w, [Log (NetworkError attempt)]).
Proof. reflexivity. Qed.

(** An attempt whose [try] block ends on a [RequestException] ends in the
    state in which the exception left it. *)
Lemma attempt_once_request_exception E id name unzip_songs delete_zip attempt
    w w1 tr1 :
  attempt_body E id name unzip_songs delete_zip w
    = (Raise RequestException, w1, tr1) →
  attempt_once E id name unzip_songs delete_zip attempt w
    = (Ok false, w1, tr1 ++ [Log (NetworkError attempt)]).
Proof.
  intros Hbody. unfold attempt_once, try_except.
  rewrite run_bind, Hbody, run_bind, request_exception_no_cleanup.
  reflexivity.
Qed.

(** C4.  A transfer cut by a [RequestException] leaves the chunk it wrote
    in the temporary file when the attempt ends, so the file is there when
    the second attempt begins; as the later attempts fail with the same
    kind of error, it is still there when [download_song] gives up after
    its fifth attempt. *)
Theorem request_error_keeps_partial_file :
  (let '(r, w', tr) :=
     attempt_once (cutting RequestException) (PyStr "KV100")
       "Queen - Song - KV100.zip" false false 1 pending_world in
   r = Ok false
   ∧ files w' !! "Queen - Song - KV100.tmp" = Some [Byte.x50; Byte.x4b]
   ∧ last tr = Some (Log (NetworkError 1)))
  ∧ (let '(r, w', tr) :=
       download_song (cutting RequestException) false false pending_world in
     r = Ok tt
     ∧ omap retry_view tr = retry_schedule (cutting RequestException) 5
     ∧ files w' !! "Queen - Song - KV100.tmp" = Some [Byte.x50; Byte.x4b]).
Proof. vm_compute. repeat split; reflexivity. Qed.

(** The same transfer cut by any other exception: the [except Exception]
    clause deletes the temporary file before the attempt ends. *)
Lemma other_error_deletes_partial_file :
  let '(r, w', tr) :=
    attempt_once (cutting OtherException) (PyStr "KV100")
      "Queen - Song - KV100.zip" false false 1 pending_world in
  r = Ok false
  ∧ files w' !! "Queen - Song - KV100.tmp" = None
  ∧ last tr = Some (Log (AttemptFailed 1)).
Proof. vm_compute. repeat split; reflexivity. Qed.

(** ** Exhaustion *)

(** The fetcher alone: after five failed attempts the track is marked
    not downloaded and [download_failed] is emitted last. *)
Lemma download_song_exhausted :
  let '(r, w', tr) := download_song offline false false pending_world in
  r = Ok tt
  ∧ song w' !! "downloaded" = Some (PyInt 0)
  ∧ omap retry_view tr = retry_schedule offline 5
  ∧ last tr
    = Some (Emit (download_failed "KV100" "Download failed after 5 attempts")).
Proof. vm_compute. repeat split; reflexivity. Qed.

(** Whenever [download_song] returns, whatever it did to the track, the
    orchestrator marks the track downloaded, counts it and updates its
    row. *)
Lemma download_and_update_after_return E unzip_songs delete_zip w w1 tr1 tbl :
  stop_downloading_flag w = false →
  song w !! "downloaded" = Some (PyInt 0) →
  download_song E unzip_songs delete_zip w = (Ok tt, w1, tr1) →
  Database.update_song (<["downloaded" := PyInt 1]> (song w1)) (db w1)
    = (Ok tt, tbl) →
  download_and_update E unzip_songs delete_zip w
  = (Ok tt,
     {| song := <["downloaded" := PyInt 1]> (song w1); files := files w1;
        requests := requests w1; db := tbl;
        downloaded_song_count := S (downloaded_song_count w1);
        stop_downloading_flag := stop_downloading_flag w1 |},
     Emit (song_started (song w)) :: tr1).
Proof.
  intros Hstop Hflag Hrun Hupd.
  unfold download_and_update. rewrite run_bind. unfold get_stop_flag at 1.
  rewrite Hstop. rewrite run_bind. unfold song_item at 1. rewrite Hflag.
  rewrite bool_decide_eq_true_2 by reflexivity.
  rewrite !run_bind. unfold get_song at 1. rewrite !run_bind.
  unfold tell at 1. cbn [outer_attempts retries]. rewrite run_bind.
  unfold try_except. rewrite run_bind, Hrun. rewrite !run_bind.
  unfold song_set at 1. rewrite !run_bind. unfold count_download at 1.
  rewrite !run_bind. unfold db_update_song at 1. cbn [with_song song db].
  rewrite Hupd. cbn. rewrite !app_nil_r. reflexivity.
Qed.

(** C1.  Around the fetcher, [download_and_update] takes the return of
    [download_song] for a success: for a track whose five attempts failed
    it emits no failure of its own, sets the flag back to 1, counts the
    track as downloaded and stores the flag 1 in its row. *)
Theorem exhausted_track_stored_as_downloaded :
  let '(r, w', tr) := download_and_update offline false false pending_world in
  r = Ok tt
  ∧ last tr
    = Some (Emit (download_failed "KV100" "Download failed after 5 attempts"))
  ∧ song w' !! "downloaded" = Some (PyInt 1)
  ∧ downloaded_song_count w' = 1
  ∧ Database.song_exists "KV100" (db w') = Some (Database.SqlInt 1).
Proof. vm_compute. repeat split; reflexivity. Qed.

End Acquisition.

(** * Further properties of the archive fetcher and the orchestrator *)

Section AcquisitionMore.
Import Downloader Threads.

Implicit Types (E : environment) (w : world).

(** ** The temporary file *)

Lemma list_ascii_of_string_app (s1 s2 : string) :
  String.list_ascii_of_string (s1 +:+ s2)
  = String.list_ascii_of_string s1 ++ String.list_ascii_of_string s2.
Proof.
  induction s1 as [| c s1 IH]; [reflexivity |].
  change (String c s1 +:+ s2) with (String c (s1 +:+ s2)).
  cbn [String.list_ascii_of_string app]. f_equal. exact IH.
Qed.

(** The temporary file of an archive is another file. *)
Lemma temp_file_differs (stem : string) :
  with_suffix (stem +:+ ".zip") ".tmp" ≠ stem +:+ ".zip".
Proof.
  unfold with_suffix. intros H.
  apply (f_equal String.list_ascii_of_string) in H.
  rewrite !list_ascii_of_string_app in H.
  apply (f_equal (@rev ascii)) in H. rewrite !rev_app_distr in H.
  cbn in H. discriminate H.
Qed.

Lemma string_append_assoc (s1 s2 s3 : string) :
  (s1 +:+ s2) +:+ s3 = s1 +:+ (s2 +:+ s3).
Proof.
  induction s1 as [| c s1 IH]; [reflexivity |].
  change (String c s1 +:+ s2) with (String c (s1 +:+ s2)).
  change (String c (s1 +:+ s2) +:+ s3) with (String c ((s1 +:+ s2) +:+ s3)).
  rewrite IH. reflexivity.
Qed.

Lemma sanitize_filename_zip lr artist title id name :
  sanitize_filename lr artist title id = Ok name →
  ∃ stem, name = stem +:+ ".zip".
Proof.
  unfold sanitize_filename.
  destruct artist as [| a | |], title as [| t | |]; try discriminate.
  intros [= <-].
  exists (sanitize a +:+ " - " +:+ sanitize t +:+ " - "
            +:+ format_value lr id).
  rewrite !string_append_assoc. reflexivity.
Qed.

(** ** A transfer that goes through *)

Lemma with_files_same (f : gmap string bytes → gmap string bytes) w :
  f (files w) = files w → with_files f w = w.
Proof. destruct w. unfold with_files. cbn. intros ->. reflexivity. Qed.

Lemma write_chunks_received id temp total chunks written len w :
  files w !! temp = Some written →
  ∃ progress,
    write_chunks (PyStr id) temp total chunks written len w
    = (Ok (len + Z.of_nat (length (concat chunks)))%Z,
       with_files (insert temp (written ++ concat chunks)) w, progress)
    ∧ Forall (λ e, ∃ d t, e = Emit (download_progress id d t)) progress.
Proof.
  revert written len w.
  induction chunks as [| chunk chunks IH]; intros written len w Hfile.
  - exists []. split; [| constructor]. cbn.
    rewrite Z.add_0_r, app_nil_r, with_files_same by (apply insert_id, Hfile).
    reflexivity.
  - destruct chunk as [| b chunk].
    + cbn [write_chunks concat app]. apply IH, Hfile.
    + cbn [write_chunks]. rewrite !run_bind. unfold write_file at 1.
      set (w1 := with_files (insert temp (written ++ b :: chunk)) w).
      assert (files w1 !! temp = Some (written ++ b :: chunk)) as Hfile1
        by (destruct w; apply lookup_insert_eq).
      destruct (IH (written ++ b :: chunk)
                  (len + Z.of_nat (length (b :: chunk)))%Z w1 Hfile1)
        as (progress & Heq & Hprogress).
      assert (with_files (insert temp ((written ++ b :: chunk) ++ concat chunks))
                w1
              = with_files
                  (insert temp (written ++ concat ((b :: chunk) :: chunks))) w)
        as Hw.
      { destruct w. unfold w1, with_files. cbn [files song requests db
          downloaded_song_count stop_downloading_flag concat].
        rewrite insert_insert_eq, <- app_assoc. reflexivity. }
      assert ((len + Z.of_nat (length (b :: chunk))
               + Z.of_nat (length (concat chunks)))%Z
              = (len + Z.of_nat (length (concat ((b :: chunk) :: chunks))))%Z)
        as Hlen.
      { cbn [concat]. rewrite (length_app (b :: chunk)). lia. }
      rewrite Hw, Hlen in Heq.
      destruct total as [total |].
      * destruct (total =? 0)%Z.
        -- rewrite !run_bind. cbn [mret M_ret ret]. rewrite Heq.
           exists progress. split; [reflexivity | exact Hprogress].
        -- rewrite !run_bind. cbn [emit_id tell]. rewrite Heq.
           eexists (_ :: progress). split; [reflexivity |].
           constructor; [eexists _, _; reflexivity | exact Hprogress].
      * rewrite !run_bind. cbn [mret M_ret ret]. rewrite Heq.
        exists progress. split; [reflexivity | exact Hprogress].
Qed.

Lemma transfer_succeeds E id name delete_zip w u r1 href r2 :
  song w !! "download_url" = Some (PyStr u) →
  session E (requests w) = Replies r1 →
  x_file_href r1 = Some href → href ≠ "" →
  session E (S (requests w)) = Replies r2 →
  status_ok r2 = true →
  (content_length r2 = None ∨ ∃ n, content_length r2 = Some (Ok n)) →
  body_error r2 = None →
  zip_ok E (concat (body r2)) = true →
  with_suffix name ".tmp" ≠ name →
  ∃ progress,
    attempt_body E (PyStr id) name false delete_zip w
    = (Ok tt,
       {| song :=
            <["download_size" := PyInt (Z.of_nat (length (concat (body r2))))]>
              (<["downloaded" := PyInt 1]>
                 (<["file_path" := PyList [name]]>
                    (<["extracted" := PyInt 0]> (song w))));
          files := <[name := concat (body r2)]>
                     (delete (with_suffix name ".tmp") (files w));
          requests := S (S (requests w));
          db := db w;
          downloaded_song_count := downloaded_song_count w;
          stop_downloading_flag := stop_downloading_flag w |},
       [Get ("https://www.karaoke-version.com" +:+ u); Get href] ++ progress
       ++ [Log ZipVerified;
           Log (Downloaded (Z.of_nat (length (concat (body r2)))));
           Emit (download_finished id);
           Emit (song_download_completed id)])
    ∧ Forall (λ e, ∃ d t, e = Emit (download_progress id d t)) progress.
Proof.
  intros Hurl Hr1 Hhref Hne Hr2 Hok Hlen Herr Hzip Htmp.
  remember (with_suffix name ".tmp") as temp eqn:Htemp.
  remember (concat (body r2)) as data eqn:Hdata.
  apply String.eqb_neq in Hne.
  destruct w as [sg fs rq tbl cnt flag].
  cbn [song files requests db downloaded_song_count stop_downloading_flag]
    in *.
  unfold attempt_body, get_direct_download_url. rewrite <- Htemp.
  cbn [resolve_attempts].
  rewrite run_bind. unfold song_item at 1. cbn [song]. rewrite Hurl.
  rewrite run_bind. cbn [mret M_ret ret].
  rewrite run_bind. rewrite run_bind. unfold try_except at 1.
  rewrite run_bind. unfold session_get at 1. cbn [requests]. rewrite Hr1.
  cbn [mret M_ret ret]. rewrite Hhref. cbn [mret M_ret ret].
  rewrite run_bind. rewrite Hne. cbn [mret M_ret ret].
  rewrite run_bind. unfold session_get at 1.
  cbn [song files requests db downloaded_song_count stop_downloading_flag].
  rewrite Hr2.
  rewrite run_bind. rewrite Hok. cbn [mret M_ret ret].
  rewrite run_bind.
  assert (∃ total, match content_length r2 with
                   | Some (Ok n) => mret (Some n)
                   | Some (Raise e) => raise e
                   | None => mret None
                   end = (mret total : M (option Z))) as [total ->].
  { destruct Hlen as [-> | [n ->]]; eexists; reflexivity. }
  cbn [mret M_ret ret].
  rewrite run_bind. unfold write_file at 1.
  unfold with_files.
  cbn [song files requests db downloaded_song_count stop_downloading_flag].
  rewrite run_bind.
  match goal with
  | |- context [write_chunks _ _ _ _ _ _ ?w1] =>
      destruct (write_chunks_received id temp total (body r2) [] 0 w1)
        as (progress & -> & Hprogress); [apply lookup_insert_eq |]
  end.
  rewrite Z.add_0_l.
  rewrite <- Hdata.
  unfold with_files.
  cbn [song files requests db downloaded_song_count stop_downloading_flag
       app].
  rewrite run_bind, Herr. cbn [mret M_ret ret].
  rewrite run_bind. unfold rename at 1.
  unfold with_files.
  cbn [song files requests db downloaded_song_count stop_downloading_flag].
  rewrite lookup_insert_eq.
  unfold with_files.
  cbn [song files requests db downloaded_song_count stop_downloading_flag].
  rewrite !delete_insert_eq.
  rewrite run_bind. unfold verify_zip_file. rewrite run_bind.
  unfold read_file at 1.
  unfold with_files.
  cbn [song files requests db downloaded_song_count stop_downloading_flag].
  rewrite lookup_insert_eq, Hzip.
  exists progress. split; [reflexivity | exact Hprogress].
Qed.

(** [download_song] around a transfer that goes through. *)
Lemma download_song_transfer E delete_zip w id artist title u name r1 href
    r2 :
  song w !! "song_id" = Some (PyStr id) →
  song w !! "artist" = Some artist →
  song w !! "title" = Some title →
  song w !! "download_url" = Some (PyStr u) →
  sanitize_filename (list_repr E) artist title (PyStr id) = Ok name →
  files w !! name = None →
  session E (requests w) = Replies r1 →
  x_file_href r1 = Some href → href ≠ "" →
  session E (S (requests w)) = Replies r2 →
  status_ok r2 = true →
  (content_length r2 = None ∨ ∃ n, content_length r2 = Some (Ok n)) →
  body_error r2 = None →
  zip_ok E (concat (body r2)) = true →
  with_suffix name ".tmp" ≠ name
  ∧ ∃ progress,
      download_song E false delete_zip w
      = (Ok tt,
         {| song :=
              <["download_size" :=
                  PyInt (Z.of_nat (length (concat (body r2))))]>
                (<["downloaded" := PyInt 1]>
                   (<["file_path" := PyList [name]]>
                      (<["extracted" := PyInt 0]> (song w))));
            files := <[name := concat (body r2)]>
                       (delete (with_suffix name ".tmp") (files w));
            requests := S (S (requests w));
            db := db w;
            downloaded_song_count := downloaded_song_count w;
            stop_downloading_flag := stop_downloading_flag w |},
         [Get ("https://www.karaoke-version.com" +:+ u); Get href]
         ++ progress
         ++ [Log ZipVerified;
             Log (Downloaded (Z.of_nat (length (concat (body r2)))));
             Emit (download_finished id);
             Emit (song_download_completed id)])
      ∧ Forall (λ e, ∃ d t, e = Emit (download_progress id d t)) progress.
Proof.
  intros Hid Hartist Htitle Hurl Hname Hnone Hr1 Hhref Hne Hr2 Hok Hlen Herr
    Hzip.
  assert (with_suffix name ".tmp" ≠ name) as Htmp.
  { destruct (sanitize_filename_zip _ _ _ _ _ Hname) as [stem ->].
    apply temp_file_differs. }
  split; [exact Htmp |].
  destruct (transfer_succeeds E id name delete_zip w u r1 href r2
              Hurl Hr1 Hhref Hne Hr2 Hok Hlen Herr Hzip Htmp)
    as (progress & Hbody & Hprogress).
  exists progress. split; [| exact Hprogress].
  unfold download_song. rewrite !run_bind.
  unfold song_item at 1. rewrite Hid.
  rewrite !run_bind. unfold song_item at 1. rewrite Hartist.
  rewrite !run_bind. unfold song_item at 1. rewrite Htitle.
  rewrite !run_bind. rewrite Hname. unfold of_result, ret at 1.
  rewrite !run_bind. unfold path_exists at 1. rewrite Hnone.
  rewrite bool_decide_eq_false_2 by (intros [? ?]; discriminate).
  cbn [mret M_ret ret]. rewrite !run_bind. unfold path_exists at 1.
  rewrite Hnone, bool_decide_eq_false_2 by (intros [? ?]; discriminate).
  rewrite !run_bind. cbn [mret M_ret ret].
  rewrite run_bind. unfold max_retries at 1. cbn [attempts].
  rewrite run_bind. unfold attempt_once, try_except.
  rewrite run_bind, Hbody.
  cbn [mret M_ret ret app]. rewrite ?app_nil_r, <- ?app_assoc. reflexivity.
Qed.

Lemma progress_silent id (progress : list event) :
  Forall (λ e, ∃ d t, e = Emit (download_progress id d t)) progress →
  omap retry_view progress = [].
Proof.
  induction 1 as [| e l (d & t & ->) _ IH]; [reflexivity | exact IH].
Qed.



(** ** A download that is persisted *)

(** [update_song] on a track as [download_and_update] passes it after a
    download. *)
Lemma update_song_after_download (sg : pydict) (tbl : Database.song_table)
    sid a au t tu od u name size :
  sg !! "song_id" = Some (PyStr sid) →
  sg !! "artist" = Some (PyStr a) →
  sg !! "artist_url" = Some au →
  sg !! "title" = Some (PyStr t) →
  sg !! "title_url" = Some tu →
  sg !! "order_date" = Some od →
  sg !! "download_url" = Some (PyStr u) →
  Database.is_list au = false → Database.is_list tu = false →
  Database.is_list od = false →
  Database.update_song
    (<["downloaded" := PyInt 1]>
       (<["download_size" := PyInt size]>
          (<["downloaded" := PyInt 1]>
             (<["file_path" := PyList [name]]>
                (<["extracted" := PyInt 0]> sg))))) tbl
  = (Ok tt,
     (λ r', if decide (Database.song_id r' = Database.SqlText sid)
            then {| Database.song_id := Database.SqlText sid;
                    Database.artist := Database.SqlText a;
                    Database.artist_url := Database.text_column au;
                    Database.title := Database.SqlText t;
                    Database.title_url := Database.text_column tu;
                    Database.order_date := Database.text_column od;
                    Database.download_url := Database.SqlText u;
                    Database.file_path := Database.SqlJson (PyList [name]);
                    Database.downloaded := Database.SqlInt 1;
                    Database.extracted := Database.SqlInt 0 |}
            else r') <$> tbl).
Proof.
  intros Hid Ha Hau Ht Htu Hod Hu Lau Ltu Lod.
  unfold Database.update_song, Database.update_params, Database.item,
    Database.file_paths_of, dict_get_default.
  repeat first [rewrite lookup_insert_eq
               | rewrite lookup_insert_ne by discriminate].
  rewrite Ha, Hau, Ht, Htu, Hod, Hu, Hid.
  cbn [mbind result_bind option_bind from_option id Database.bind_param].
  rewrite (proj1 (bound_value au Lau)), (proj1 (bound_value tu Ltu)),
    (proj1 (bound_value od Lod)).
  cbn [mbind option_bind Database.text_affinity].
  rewrite (proj2 (bound_value au Lau)), (proj2 (bound_value tu Ltu)),
    (proj2 (bound_value od Lod)).
  f_equal. apply list_fmap_ext. intros i r' _.
  cbn [Database.song_id].
  destruct (decide (Database.song_id r' = Database.SqlText sid)) as [Hk | Hk].
  - rewrite decide_True by (split; [exact Hk | discriminate]). reflexivity.
  - rewrite decide_False by (intros [Hk' _]; exact (Hk Hk')). reflexivity.
Qed.

(** X15.  Under the conditions of a transfer that goes through, for a
    track that is not downloaded and carries its seven fields, with no
    stop requested, [download_and_update] downloads the archive once,
    counts the download and rewrites the row of the track, and no other
    row, with the name of the archive and [downloaded = 1]; it announces
    the start of the track and reports no failure. *)
Theorem download_and_update_persists E delete_zip w id a au t tu od u name r1
    href r2 :
  stop_downloading_flag w = false →
  song w !! "downloaded" = Some (PyInt 0) →
  song w !! "song_id" = Some (PyStr id) →
  song w !! "artist" = Some (PyStr a) →
  song w !! "artist_url" = Some au →
  song w !! "title" = Some (PyStr t) →
  song w !! "title_url" = Some tu →
  song w !! "order_date" = Some od →
  song w !! "download_url" = Some (PyStr u) →
  Database.is_list au = false → Database.is_list tu = false →
  Database.is_list od = false →
  sanitize_filename (list_repr E) (PyStr a) (PyStr t) (PyStr id) = Ok name →
  files w !! name = None →
  session E (requests w) = Replies r1 →
  x_file_href r1 = Some href → href ≠ "" →
  session E (S (requests w)) = Replies r2 →
  status_ok r2 = true →
  (content_length r2 = None ∨ ∃ n, content_length r2 = Some (Ok n)) →
  body_error r2 = None →
  zip_ok E (concat (body r2)) = true →
  let '(res, w', tr) := download_and_update E false delete_zip w in
  res = Ok tt
  ∧ requests w' = requests w + 2
  ∧ files w' !! name = Some (concat (body r2))
  ∧ downloaded_song_count w' = S (downloaded_song_count w)
  ∧ db w'
    = (λ r', if decide (Database.song_id r' = Database.SqlText id)
             then {| Database.song_id := Database.SqlText id;
                     Database.artist := Database.SqlText a;
                     Database.artist_url := Database.text_column au;
                     Database.title := Database.SqlText t;
                     Database.title_url := Database.text_column tu;
                     Database.order_date := Database.text_column od;
                     Database.download_url := Database.SqlText u;
                     Database.file_path := Database.SqlJson (PyList [name]);
                     Database.downloaded := Database.SqlInt 1;
                     Database.extracted := Database.SqlInt 0 |}
             else r') <$> db w
  ∧ Emit (song_started (song w)) ∈ tr
  ∧ (∀ e, Emit (song_failed id e) ∉ tr)
  ∧ omap retry_view tr = [].
Proof.
  intros Hflag Hdl Hid Ha Hau Ht Htu Hod Hu Lau Ltu Lod Hname Hnone Hr1 Hhref
    Hne Hr2 Hok Hlen Herr Hzip.
  destruct (download_song_transfer E delete_zip w id (PyStr a) (PyStr t) u
              name r1 href r2 Hid Ha Ht Hu Hname Hnone Hr1 Hhref Hne Hr2
              Hok Hlen Herr Hzip) as (Htmp & progress & Hdown & Hprogress).
  unfold download_and_update. rewrite run_bind.
  unfold get_stop_flag at 1. rewrite Hflag.
  rewrite run_bind. unfold song_item at 1. rewrite Hdl.
  rewrite bool_decide_eq_true_2 by reflexivity.
  rewrite run_bind. unfold get_song at 1.
  rewrite run_bind. unfold tell at 1.
  unfold retries. cbn [outer_attempts].
  rewrite run_bind. unfold try_except at 1.
  rewrite run_bind, Hdown.
  rewrite run_bind. unfold song_set at 1, with_song.
  cbn [song files requests db downloaded_song_count stop_downloading_flag].
  rewrite run_bind. unfold count_download at 1.
  cbn [song files requests db downloaded_song_count stop_downloading_flag].
  rewrite run_bind. unfold db_update_song at 1.
  cbn [song files requests db downloaded_song_count stop_downloading_flag].
  rewrite (update_song_after_download (song w) (db w) id a au t tu od u name
             _ Hid Ha Hau Ht Htu Hod Hu Lau Ltu Lod).
  cbn [mret M_ret ret song files requests db downloaded_song_count
       stop_downloading_flag].
  split; [reflexivity |]. split; [lia |].
  split; [apply lookup_insert_eq |]. split; [reflexivity |].
  split; [reflexivity |].
  match goal with
  | |- _ ∈ ?t ∧ _ =>
      assert (t = Emit (song_started (song w))
                  :: [Get ("https://www.karaoke-version.com" +:+ u); Get href]
                  ++ progress
                  ++ [Log ZipVerified;
                      Log (Downloaded
                             (Z.of_nat (length (concat (body r2)))));
                      Emit (download_finished id);
                      Emit (song_download_completed id)]) as ->
        by (cbn [app]; rewrite ?app_nil_r, <- ?app_assoc; reflexivity)
  end.
  split; [left |]. split.
  - intros e Hin. apply elem_of_cons in Hin as [Hin | Hin]; [discriminate |].
    apply elem_of_app in Hin as [Hin | Hin].
    { repeat (apply elem_of_cons in Hin as [Hin | Hin]; [discriminate |]).
      inversion Hin. }
    apply elem_of_app in Hin as [Hin | Hin].
    { eapply Forall_forall in Hprogress as (d & t' & Heq); [| exact Hin].
      discriminate Heq. }
    repeat (apply elem_of_cons in Hin as [Hin | Hin]; [discriminate |]).
    inversion Hin.
  - cbn [omap list_omap retry_view]. rewrite !omap_app.
    rewrite (progress_silent id progress Hprogress). reflexivity.
Qed.

Lemma download_and_update_persists_witness :
  let '(res, w', tr) := download_and_update serving false false pending_world in
  res = Ok tt
  ∧ files w' !! "Queen - Song - KV100.zip"
    = Some [Byte.x50; Byte.x4b; Byte.x03; Byte.x04]
  ∧ downloaded_song_count w' = 1
  ∧ Database.downloaded <$> db w' = [Database.SqlInt 1]
  ∧ Database.file_path <$> db w'
    = [Database.SqlJson (PyList ["Queen - Song - KV100.zip"])].
Proof.
  pose proof (download_and_update_persists serving false pending_world
                "KV100" "Queen" (PyStr "/queen.html") "Song"
                (PyStr "/song.html") (PyStr "2024-01-01")
                "/my/download.html?id=1" "Queen - Song - KV100.zip"
                _ "https://cdn.example/kv100.zip" _
                eq_refl eq_refl eq_refl eq_refl eq_refl eq_refl eq_refl
                eq_refl eq_refl eq_refl eq_refl eq_refl eq_refl eq_refl
                eq_refl eq_refl ltac:(discriminate) eq_refl eq_refl
                ltac:(right; eexists; reflexivity) eq_refl eq_refl) as H.
  destruct (download_and_update serving false false pending_world)
    as [[res w'] tr].
  destruct H as (Hres & _ & Hfile & Hcount & Hdb & _).
  split; [exact Hres |]. split; [exact Hfile |]. split; [exact Hcount |].
  rewrite Hdb. split; reflexivity.
Defined.


End AcquisitionMore.
